(** * Backend token handling: server tokens and identity tokens

    A shallow embedding of
    [packages/backend-common/src/tokens/ServerTokenManager.ts] and of the
    key-set cache and verifier exercised by
    [plugins/auth-node/src/IdentityClient.test.ts].

    JavaScript values are modelled as follows.
    - A [Uint8Array] is a list of bytes.
    - A value that may be [undefined] is an [option].
    - A flat object with string values ([{ alg: 'HS256', sub: ... }]) is a
      finite map from property names to strings.
    - An [async] function that either resolves or rejects is a function into
      [Completion]; where it also assigns to fields of [this], the fields
      after the call are returned next to the completion, also when it
      throws. That is a call awaited before the next one is made; for
      [getToken], whose parts between two [await]s can interleave with
      those of other calls, the parts are modelled too.
    - The [jose] package is an interface ([Class Jose]); what is assumed of
      it is stated as named propositions that the theorems take as
      hypotheses. *)

From Stdlib Require Import ZArith Lia.
From Stdlib.Strings Require Byte.
From Stdlib Require Import Ascii.
From stdpp Require Import base option list strings gmap.


(** ** JavaScript preliminaries *)

Definition Uint8Array : Type := list Byte.byte.

#[global] Instance byte_eq_dec : EqDecision Byte.byte := Byte.byte_eq_dec.

(** An object whose property values are all strings. *)
Abbreviation JSONObject := (gmap string string).

(** A value of an object that also holds numbers and arrays of strings. *)
Inductive JSON : Type :=
| JString (s : string)
| JNumber (n : Z)
| JStrings (l : list string).

#[global] Instance JSON_eq_dec : EqDecision JSON.
Proof. solve_decision. Defined.

(** What a [throw] carries: an [Error] object with its [name] and
    [message]. *)
Record JsError : Type := mkError { name : string; message : string }.

#[global] Instance JsError_eq_dec : EqDecision JsError.
Proof. solve_decision. Defined.

(** [new Error(msg)] *)
Definition Error (msg : string) : JsError := mkError "Error" msg.
(** [new TypeError(msg)] *)
Definition TypeError (msg : string) : JsError := mkError "TypeError" msg.
(** [new AuthenticationError(msg)] of [@backstage/errors]: an [Error]
    subclass whose [name] is the class name. *)
Definition AuthenticationError (msg : string) : JsError :=
  mkError "AuthenticationError" msg.

(** [Error.prototype.toString] *)
Definition Error_toString (e : JsError) : string :=
  if bool_decide (name e = EmptyString) then message e
  else if bool_decide (message e = EmptyString) then name e
  else name e +:+ ": " +:+ message e.

(** The string a template literal [`${v}`] inserts for a caught value or
    [undefined]. *)
Definition template (v : option JsError) : string :=
  match v with
  | None => "undefined"
  | Some e => Error_toString e
  end.

(** Normal or abrupt completion of a call. *)
Inductive Completion (A : Type) : Type :=
| Return (a : A)
| Throw (e : JsError).
Arguments Return {A} a.
Arguments Throw {A} e.

Definition bind {A B} (c : Completion A) (k : A -> Completion B) : Completion B :=
  match c with
  | Return a => k a
  | Throw e => Throw e
  end.

Notation "x <- c ;; k" := (bind c (fun x => k))
  (at level 100, c at next level, right associativity).

(** [xs.map(f)] where [f] may throw: left to right, stopping at the first
    throw. *)
Fixpoint mapM {A B} (f : A -> Completion B) (xs : list A) : Completion (list B) :=
  match xs with
  | [] => Return []
  | x :: xs' => y <- f x ;; ys <- mapM f xs' ;; Return (y :: ys)
  end.

(** [arr.push(x)] *)
Definition push {A} (arr : list A) (x : A) : list A := arr ++ [x].

(** ** The part of [jose] the sources call *)

(** The builder behind [new SignJWT(payload)]. *)
Record SignJWT : Type := mkSignJWT {
  _payload : JSONObject;
  _protectedHeader : JSONObject
}.

Definition new_SignJWT (payload : JSONObject) : SignJWT :=
  mkSignJWT payload ∅.

Definition setProtectedHeader (h : JSONObject) (b : SignJWT) : SignJWT :=
  mkSignJWT (_payload b) h.

(** [setSubject(s)] is [this._payload = { ...this._payload, sub: s }]. *)
Definition setSubject (s : string) (b : SignJWT) : SignJWT :=
  mkSignJWT (<["sub" := s]> (_payload b)) (_protectedHeader b).

(** The value [jwtVerify] resolves to. *)
Record JWTVerifyResult : Type := mkVerifyResult {
  payload : JSONObject;
  protectedHeader : JSONObject
}.

Class Jose : Type := {
  (** [base64url.decode] (the Node runtime: [Buffer.from(s, 'base64')],
      which does not throw) *)
  base64url_decode : string -> Uint8Array;
  (** [builder.sign(key)] with a [Uint8Array] secret *)
  SignJWT_sign : SignJWT -> Uint8Array -> Completion string;
  (** [jwtVerify(token, getKey)] without options *)
  jwtVerify : string -> (JSONObject -> Uint8Array) -> Completion JWTVerifyResult;
  (** [decodeProtectedHeader(token)] *)
  decodeProtectedHeader : string -> Completion JSONObject;
  (** [decodeJwt(token)] *)
  decodeJwt : string -> Completion JSONObject
}.

(** [builder.sign(key)] where [key] may be [undefined]. *)
Definition sign `{Jose} (b : SignJWT) (key : option Uint8Array) : Completion string :=
  match key with
  | None => Throw (TypeError "Key must be one of type KeyObject, CryptoKey, or Uint8Array.")
  | Some k => SignJWT_sign b k
  end.

(** ** ServerTokenManager *)

Module ServerTokenManager.
Section Manager.
Context `{Jose}.

(** [process.env.NODE_ENV]: read by the class, never assigned. *)
Variable NODE_ENV : option string.

Definition not_development : bool :=
  bool_decide (NODE_ENV ≠ Some "development").

(** The two private fields. [signingKey] is [undefined] while
    [verificationKeys] is empty. *)
Record t : Type := mk {
  verificationKeys : list Uint8Array;
  signingKey : option Uint8Array
}.

(** [private constructor(secrets: string[])] *)
Definition constructor (secrets : list string) : Completion t :=
  if bool_decide (length secrets = 0) && not_development then
    Throw (Error "No secrets provided when constructing ServerTokenManager")
  else
    let verificationKeys :=
      fold_left (fun keys k => push keys (base64url_decode k)) secrets [] in
    Return (mk verificationKeys (verificationKeys !! 0)).

(** [config.getString(key)] on one element of the config array: an [Error]
    when the value is missing, a [TypeError] when it is the empty string or
    not a string (the messages are the config library's and are given in
    short). *)
Definition getString (key : string) (config : gmap string JSON) : Completion string :=
  match config !! key with
  | Some (JString s) =>
      if bool_decide (s = EmptyString)
      then Throw (TypeError ("Invalid type in config for key '" +:+ key
                             +:+ "', got empty-string, wanted string"))
      else Return s
  | Some _ =>
      Throw (TypeError ("Invalid type in config for key '" +:+ key +:+ "', wanted string"))
  | None => Throw (Error ("Missing required config value at '" +:+ key +:+ "'"))
  end.

(** [static fromConfig(config, { logger })]. [keys] is the value of
    [config.getOptionalConfigArray('backend.auth.keys')]; the second
    component of the result lists the [logger.warn] messages. *)
Definition fromConfig (keys : option (list (gmap string JSON)))
    : Completion (t * list string) :=
  match keys with
  | Some (k :: ks) =>
      secrets <- mapM (getString "secret") (k :: ks) ;;
      m <- constructor secrets ;;
      Return (m, [])
  | _ =>
      if not_development then
        Throw (Error "You must configure at least one key in backend.auth.keys for production.")
      else
        m <- constructor [] ;;
        Return (m, ["Generated a secret for backend-to-backend authentication: DEVELOPMENT USE ONLY."])
  end.

(** [private async generateKeys()]. [jwk] is what
    [exportJWK(await generateSecret('HS256'))] resolves to in this call. *)
Definition generateKeys (jwk : JSONObject) (this : t) : Completion () * t :=
  if not_development then
    (Throw (Error "Key generation is not supported outside of the dev environment"), this)
  else
    let verificationKeys :=
      push (verificationKeys this) (base64url_decode (default EmptyString (jwk !! "k"))) in
    (Return (), mk verificationKeys (verificationKeys !! 0)).

(** The builder on which [getToken] calls [.sign]. *)
Definition getToken_jwt : SignJWT :=
  let sub := "backstage-server" in
  setSubject "backstage-server"
    (setProtectedHeader {[ "alg" := "HS256"; "sub" := sub ]}
       (new_SignJWT {[ "alg" := "HS256" ]})).

(** [async getToken()]; the result is the [token] field. *)
Definition getToken (jwk : JSONObject) (this : t) : Completion string * t :=
  let '(r, this) :=
    if bool_decide (length (verificationKeys this) = 0)
    then generateKeys jwk this
    else (Return (), this) in
  match r with
  | Throw e => (Throw e, this)
  | Return _ => (sign getToken_jwt (signingKey this), this)
  end.

(** The [for ... of] loop of [authenticate], with the current value of
    [verifyError]. *)
Fixpoint authenticate_loop (token : string) (keys : list Uint8Array)
    (verifyError : option JsError) : Completion () :=
  match keys with
  | [] => Throw (AuthenticationError ("Invalid server token: " +:+ template verifyError))
  | key :: rest =>
      let lookup := fun _protectedHeader : JSONObject => key in
      match jwtVerify token lookup with
      | Return _ => Return ()
      | Throw e => authenticate_loop token rest (Some e)
      end
  end.

(** [async authenticate(token: string)] *)
Definition authenticate (token : string) (this : t) : Completion () :=
  authenticate_loop token (verificationKeys this) None.

(** A call a client makes on an instance and awaits before it makes the
    next one, and the instance after it. Calls that overlap are modelled
    further down. *)
Inductive Call : Type :=
| CallGetToken (jwk : JSONObject)
| CallAuthenticate (token : string).

Definition step (this : t) (c : Call) : t :=
  match c with
  | CallGetToken jwk => snd (getToken jwk this)
  | CallAuthenticate _ => this
  end.

(** The instances a sequence of calls goes through, the initial one
    first. *)
Fixpoint trace (this : t) (cs : list Call) : list t :=
  match cs with
  | [] => [this]
  | c :: cs' => this :: trace (step this c) cs'
  end.

(** How often the store changes along a trace. *)
Fixpoint mutations (ts : list t) : nat :=
  match ts with
  | a :: (b :: _) as rest =>
      (if bool_decide (verificationKeys a = verificationKeys b) then 0 else 1)
      + mutations rest
  | _ => 0
  end.

(** Calls that overlap. A [getToken] call runs up to its first [await] when
    it is made and from one [await] to the next each time it is resumed;
    between two such parts, parts of other calls may run. A call in flight
    is at one of its [await]s, with what it awaits where that is already
    determined, or is settled. *)
Inductive Task : Type :=
| AwaitGenerateSecret
| AwaitExportJWK
| AwaitGenerateKeys (r : Completion ())
| AwaitSign (r : Completion string)
| Settled (r : Completion string).

(** [getToken] from the call to its first [await]: at
    [await generateSecret('HS256')] in [generateKeys], at
    [await this.generateKeys()] when [generateKeys] has thrown, or at
    [await ... .sign(this.signingKey)]. *)
Definition invoke (this : t) : Task :=
  if bool_decide (length (verificationKeys this) = 0) then
    if not_development then
      AwaitGenerateKeys
        (Throw (Error "Key generation is not supported outside of the dev environment"))
    else AwaitGenerateSecret
  else AwaitSign (sign getToken_jwt (signingKey this)).

(** A call from the [await] it is at to its next one. [jwk] is what
    [exportJWK] resolves to, for the call that is at that [await]. *)
Definition resume (jwk : JSONObject) (task : Task) (this : t) : Task * t :=
  match task with
  | AwaitGenerateSecret => (AwaitExportJWK, this)
  | AwaitExportJWK =>
      let verificationKeys :=
        push (verificationKeys this) (base64url_decode (default EmptyString (jwk !! "k"))) in
      (AwaitGenerateKeys (Return ()), mk verificationKeys (verificationKeys !! 0))
  | AwaitGenerateKeys (Throw e) => (Settled (Throw e), this)
  | AwaitGenerateKeys (Return _) => (AwaitSign (sign getToken_jwt (signingKey this)), this)
  | AwaitSign r => (Settled r, this)
  | Settled r => (Settled r, this)
  end.

(** An instance with the [getToken] calls made on it so far. *)
Record System : Type := mkSystem { instance : t; tasks : list Task }.

(** What happens next: a client calls [getToken] or [authenticate], or the
    call number [i] is resumed. [authenticate] assigns to no field. *)
Inductive Event : Type :=
| GetToken
| Authenticate (token : string)
| Resume (i : nat) (jwk : JSONObject).

Definition react (s : System) (e : Event) : System :=
  match e with
  | GetToken => mkSystem (instance s) (tasks s ++ [invoke (instance s)])
  | Authenticate _ => s
  | Resume i jwk =>
      match tasks s !! i with
      | Some task =>
          let '(task, this) := resume jwk task (instance s) in
          mkSystem this (<[i := task]> (tasks s))
      | None => s
      end
  end.

(** The systems a sequence of events goes through, the initial one
    first. *)
Fixpoint history (s : System) (es : list Event) : list System :=
  match es with
  | [] => [s]
  | e :: es' => s :: history (react s e) es'
  end.

(** A call that is awaited: it is made and resumed until it is settled,
    with nothing in between. *)
Definition awaited (s : System) (jwk : JSONObject) : list Event :=
  let i := length (tasks s) in
  [GetToken; Resume i jwk; Resume i jwk; Resume i jwk; Resume i jwk].

End Manager.
End ServerTokenManager.

(** ** What the theorems assume of [jose] *)

Section JoseContract.
Context `{Jose}.

(** Signing under HS256 with a secret resolves. *)
Definition sign_HS256_returns : Prop :=
  ∀ (b : SignJWT) (k : Uint8Array),
    _protectedHeader b !! "alg" = Some "HS256" →
    ∃ token, SignJWT_sign b k = Return token.

(** A token signed under HS256 verifies under the secret that signed it,
    and [jwtVerify] resolves to its payload and header. The payload
    carries no [exp] or [nbf] claim, which [jwtVerify] would validate. *)
Definition verify_accepts_signed : Prop :=
  ∀ (b : SignJWT) (k : Uint8Array) (token : string) (getKey : JSONObject → Uint8Array),
    _protectedHeader b !! "alg" = Some "HS256" →
    _payload b !! "exp" = None → _payload b !! "nbf" = None →
    SignJWT_sign b k = Return token →
    getKey (_protectedHeader b) = k →
    jwtVerify token getKey = Return (mkVerifyResult (_payload b) (_protectedHeader b)).

(** HMAC pads a key shorter than its block of 64 bytes with zero bytes up
    to the block. A longer key is hashed first; such keys are left out
    below. *)
Definition hmac_block : nat := 64.
Definition hmac_key (k : Uint8Array) : Uint8Array :=
  k ++ replicate (hmac_block - length k) Byte.x00.

(** The MAC is ideal up to that padding: among secrets no longer than the
    block, a signed token verifies only under a secret that pads to the
    same key as the one that signed it. *)
Definition verify_only_equivalent_key : Prop :=
  ∀ (b : SignJWT) (k : Uint8Array) (token : string) (getKey : JSONObject → Uint8Array)
    (r : JWTVerifyResult),
    length k ≤ hmac_block → length (getKey (_protectedHeader b)) ≤ hmac_block →
    SignJWT_sign b k = Return token →
    jwtVerify token getKey = Return r →
    hmac_key (getKey (_protectedHeader b)) = hmac_key k.

(** Decoding a signed token gives back what the builder held. *)
Definition decode_signed : Prop :=
  ∀ (b : SignJWT) (k : Uint8Array) (token : string),
    SignJWT_sign b k = Return token →
    decodeProtectedHeader token = Return (_protectedHeader b)
    ∧ decodeJwt token = Return (_payload b).

(** The [alg] values [jwtVerify] applies to a [Uint8Array] secret when no
    [algorithms] option is given: "by default all alg values applicable
    for the used key/secret are allowed; none is never accepted". *)
Definition secret_algorithms : list string := ["HS256"; "HS384"; "HS512"].

Definition verify_secret_algorithms : Prop :=
  ∀ (token : string) (getKey : JSONObject → Uint8Array) (r : JWTVerifyResult),
    jwtVerify token getKey = Return r →
    decodeProtectedHeader token = Return (protectedHeader r)
    ∧ ∃ a, protectedHeader r !! "alg" = Some a ∧ a ∈ secret_algorithms.

End JoseContract.

(** ** IdentityClient *)

Module IdentityClient.

(** Modelled from the spec: [IdentityClient.ts] is not among the sources,
    only its test is. "IdentityClaims: decoded token payload — issuer,
    subject, audience, issued-at, expiry, optional list of ownership
    references." *)
Record IdentityClaims : Type := mkClaims {
  iss : string;
  sub : string;
  aud : string;
  iat : Z;
  exp : Z;
  ent : option (list string)
}.

(** Modelled from the spec: "ValidatedIdentity: output record
    [{type, userEntityRef, ownershipEntityRefs}]". *)
Record BackstageIdentity : Type := mkIdentity {
  type : string;
  userEntityRef : string;
  ownershipEntityRefs : list string
}.

(** Modelled from the spec: the value [authenticate] returns,
    [{token, identity}]. *)
Record BackstageIdentityResponse : Type := mkResponse {
  token : string;
  identity : BackstageIdentity
}.

(** Modelled from the spec: "RemoteKeySetCache: mapping from key-id to
    public key material, plus a last-fetched timestamp"; "empty at
    construction". A key is an entry of the key-set document,
    [{ kty, use, alg, kid, ... }]. *)
Record RemoteKeySetCache : Type := mkCache {
  keys : gmap string JSONObject;
  lastFetched : option Z
}.

(** Modelled from the spec: the cache is "empty at construction". *)
Definition empty : RemoteKeySetCache := mkCache ∅ None.

(** Modelled from the spec: "KeyResolutionError (remote key-set fetch or
    key-id-not-found failure, wrapped into AuthenticationError at the
    verifier boundary)". *)
Definition KeyResolutionError (msg : string) : JsError :=
  mkError "KeyResolutionError" msg.

(** Modelled from the spec: step 4, "verify signature using exactly the
    algorithm the key advertises capability for". A key that names an
    [alg] is used under that algorithm only. A key that names none, as the
    keys the factory of the test publishes, is used under the algorithm of
    the token, which must be an allowed one. *)
Definition key_allows (key : JSONObject) (alg : string) : bool :=
  match key !! "alg" with
  | Some a => bool_decide (a = alg)
  | None => true
  end.

Section Verifier.

(** [decodeProtectedHeader(token)] of the trusted library; a header may
    hold an array next to strings. *)
Variable decodeProtectedHeader : string → Completion (gmap string JSON).
(** Signature verification of a compact token under a public key and an
    algorithm, a primitive of the trusted library: it gives the decoded
    payload when the signature is good. *)
Variable verifySignature : JSONObject → string → string → option IdentityClaims.
(** The allowed asymmetric algorithms. *)
Variable algorithms : list string.
(** The rotation cooldown and the allowed clock skew. *)
Variable cooldown : Z.
Variable skew : Z.
(** The configured issuer. *)
Variable issuer : string.

(** Modelled from the spec: "the fixed platform audience"; its value is the
    [aud] the token factory of the test sets. *)
Definition audience : string := "backstage".

(** Modelled from the spec: a refresh is allowed when "the cache has never
    been fetched, OR the cooldown interval has elapsed since the last
    fetch". *)
Definition may_refresh (c : RemoteKeySetCache) (now : Z) : bool :=
  match lastFetched c with
  | None => true
  | Some t => bool_decide (t + cooldown ≤ now)%Z
  end.

(** Modelled from the spec: the refresh policy of the Remote Key-Set
    Cache, "on a lookup for key-id K". [remote] is what a fetch of the
    key-set document gives at this moment. The result carries the cache
    after the lookup and the number of fetches performed. *)
Definition lookupKey (K : string) (now : Z)
    (remote : Completion (gmap string JSONObject)) (c : RemoteKeySetCache)
    : Completion JSONObject * RemoteKeySetCache * nat :=
  match keys c !! K with
  | Some k => (Return k, c, 0)
  | None =>
      if may_refresh c now then
        match remote with
        | Throw e => (Throw (KeyResolutionError (Error_toString e)), c, 1)
        | Return ks =>
            let c' := mkCache ks (Some now) in
            match ks !! K with
            | Some k => (Return k, c', 1)
            | None => (Throw (KeyResolutionError "key not found"), c', 1)
            end
        end
      else (Throw (KeyResolutionError "key not found"), c, 0)
  end.

(** Modelled from the spec: step 5, "issuer equals the configured issuer,
    audience equals the fixed platform audience, expiry is in the future
    relative to current time, issued-at is not in the future beyond
    allowed skew". *)
Definition claims_valid (now : Z) (cl : IdentityClaims) : bool :=
  bool_decide (iss cl = issuer) && bool_decide (aud cl = audience)
  && bool_decide (now < exp cl)%Z && bool_decide (iat cl ≤ now + skew)%Z.

(** Modelled from the spec: step 6. *)
Definition toResponse (tok : string) (cl : IdentityClaims) : BackstageIdentityResponse :=
  mkResponse tok (mkIdentity "user" (sub cl) (default [] (ent cl))).

(** Modelled from the spec: [authenticate(token)], steps 1 to 7 of
    section 4.2. *)
Definition authenticate (tok : option string) (now : Z)
    (remote : Completion (gmap string JSONObject)) (c : RemoteKeySetCache)
    : Completion BackstageIdentityResponse * RemoteKeySetCache * nat :=
  match tok with
  | None | Some EmptyString => (Throw (AuthenticationError "No token specified"), c, 0)
  | Some tok =>
      match decodeProtectedHeader tok with
      | Throw e => (Throw (AuthenticationError (Error_toString e)), c, 0)
      | Return header =>
          match header !! "kid", header !! "alg" with
          | Some (JString kid), Some (JString alg) =>
              let '(r, c', n) := lookupKey kid now remote c in
              match r with
              | Throw e => (Throw (AuthenticationError (Error_toString e)), c', n)
              | Return key =>
                  if key_allows key alg && bool_decide (alg ∈ algorithms)
                  then
                    match verifySignature key alg tok with
                    | Some cl =>
                        if claims_valid now cl
                        then (Return (toResponse tok cl), c', n)
                        else (Throw (AuthenticationError "claim validation failed"), c', n)
                    | None =>
                        (Throw (AuthenticationError "signature verification failed"), c', n)
                    end
                  else (Throw (AuthenticationError "algorithm not allowed"), c', n)
              end
          | _, _ => (Throw (AuthenticationError "invalid protected header"), c, 0)
          end
      end
  end.

End Verifier.
End IdentityClient.

(** ** A reference instance of the [jose] interface

    A symbolic instance: a compact token is the serialisation of its header,
    its payload and a tag naming the algorithm and the secret that signed
    it. It shows that the contract above is satisfiable and gives the
    concrete tokens of the examples. Its [base64url_decode] takes the bytes
    of the string as they are; no theorem depends on what it computes. *)

Module SymbolicJose.

#[local] Instance byte_countable : Countable Byte.byte :=
  inj_countable Byte.to_N Byte.of_N Byte.of_to_N.

(** A positive number written as a string of binary digits. *)
Fixpoint digits (p : positive) : string :=
  match p with
  | xH => EmptyString
  | xO q => String "0"%char (digits q)
  | xI q => String "1"%char (digits q)
  end.

Fixpoint undigits (s : string) : option positive :=
  match s with
  | EmptyString => Some xH
  | String c s' =>
      q ← undigits s';
      if bool_decide (c = "0"%char) then Some (xO q)
      else if bool_decide (c = "1"%char) then Some (xI q)
      else None
  end.

(** Header, payload, and the tag (algorithm, secret). *)
Definition Compact : Type := JSONObject * JSONObject * (string * Uint8Array).

Definition serialize (c : Compact) : string := digits (encode c).
Definition parse (s : string) : option Compact := undigits s ≫= decode.

Definition JWSInvalid : JsError := mkError "JWSInvalid" "Invalid Compact JWS".
Definition JOSENotSupported : JsError :=
  mkError "JOSENotSupported" "Unsupported alg value for a secret".
Definition JWSSignatureVerificationFailed : JsError :=
  mkError "JWSSignatureVerificationFailed" "signature verification failed".

Definition symbolic_sign (b : SignJWT) (k : Uint8Array) : Completion string :=
  match _protectedHeader b !! "alg" with
  | None => Throw JWSInvalid
  | Some a =>
      if bool_decide (a ∈ secret_algorithms)
      then Return (serialize (_protectedHeader b, _payload b, (a, k)))
      else Throw JOSENotSupported
  end.

Definition symbolic_verify (token : string) (getKey : JSONObject → Uint8Array)
    : Completion JWTVerifyResult :=
  match parse token with
  | None => Throw JWSInvalid
  | Some (h, p, (a, k)) =>
      match h !! "alg" with
      | None => Throw JWSInvalid
      | Some a' =>
          if bool_decide (a' ∈ secret_algorithms) then
            if bool_decide (a = a') && bool_decide (k = getKey h)
            then Return (mkVerifyResult p h)
            else Throw JWSSignatureVerificationFailed
          else Throw JOSENotSupported
      end
  end.

Definition symbolic_header (token : string) : Completion JSONObject :=
  match parse token with
  | None => Throw JWSInvalid
  | Some (h, _, _) => Return h
  end.

Definition symbolic_payload (token : string) : Completion JSONObject :=
  match parse token with
  | None => Throw JWSInvalid
  | Some (_, p, _) => Return p
  end.

Definition symbolic : Jose := {|
  base64url_decode := String.list_byte_of_string;
  SignJWT_sign := symbolic_sign;
  jwtVerify := symbolic_verify;
  decodeProtectedHeader := symbolic_header;
  decodeJwt := symbolic_payload
|}.

End SymbolicJose.

(** ** An instance of the [jose] interface with HMAC's keys

    As the symbolic instance, but the tag of a token names the secret as
    HMAC uses it, padded to the block, and [base64url_decode] decodes. *)

Module HmacJose.

(** The six bits of a character of the base64 or the base64url alphabet. *)
Definition sextet (c : ascii) : option N :=
  let n := N_of_ascii c in
  if bool_decide (65 ≤ n ≤ 90)%N then Some (n - 65)%N
  else if bool_decide (97 ≤ n ≤ 122)%N then Some (n - 71)%N
  else if bool_decide (48 ≤ n ≤ 57)%N then Some (n + 4)%N
  else if bool_decide (n = 43 ∨ n = 45)%N then Some 62%N
  else if bool_decide (n = 47 ∨ n = 95)%N then Some 63%N
  else None.

(** Four sextets give three octets; two or three left over give one or
    two. *)
Fixpoint octets (l : list N) : list N :=
  match l with
  | a :: b :: c :: d :: rest =>
      (a * 4 + b / 16)%N :: ((b mod 16) * 16 + c / 4)%N :: ((c mod 4) * 64 + d)%N
      :: octets rest
  | [a; b; c] => [(a * 4 + b / 16)%N; ((b mod 16) * 16 + c / 4)%N]
  | [a; b] => [(a * 4 + b / 16)%N]
  | _ => []
  end.

(** [Buffer.from(s, 'base64')] on a string over the alphabet, as the
    secrets of the examples are; other characters are passed over here. *)
Definition decode (s : string) : Uint8Array :=
  (λ n, default Byte.x00 (Byte.of_N n))
    <$> octets (omap sextet (String.list_ascii_of_string s)).




(** The bytes of [secret], and of [secret] followed by a zero byte. *)
Definition secret : Uint8Array :=
  [Byte.x73; Byte.x65; Byte.x63; Byte.x72; Byte.x65; Byte.x74].
Definition secret_zero : Uint8Array := secret ++ [Byte.x00].

End HmacJose.

(** ** Concrete data for the examples *)

Module Examples.
Import ServerTokenManager.

(** A configured secret and the key it decodes to in the reference
    instance. *)
Definition secret : string := "c2VjcmV0".
Definition secret_key : Uint8Array := String.list_byte_of_string secret.
Definition other_secret : string := "b3RoZXI".

(** What [exportJWK] gives for a generated secret. *)
Definition generated : JSONObject := {[ "kty" := "oct"; "k" := "Z2VuZXJhdGVk" ]}.

(** A token under HS512, signed with [secret_key]. *)
Definition HS512_jwt : SignJWT :=
  setSubject "backstage-server"
    (setProtectedHeader {[ "alg" := "HS512" ]} (new_SignJWT ∅)).
Definition HS512_token : string :=
  SymbolicJose.serialize
    (_protectedHeader HS512_jwt, _payload HS512_jwt, ("HS512", secret_key)).

(** An unsigned token whose header says [alg: none]. *)
Definition none_header : JSONObject := {[ "alg" := "none" ]}.
Definition none_token : string :=
  SymbolicJose.serialize (none_header, {[ "sub" := "backstage-server" ]}, ("none", [])).

(** The issuer of the test. *)
Definition mockBaseUrl : string := "http://backstage:9191/i-am-a-mock-base".

End Examples.

(** ** NoopTokenManager *)

Module NoopTokenManager.

(** [public readonly isInsecureServerTokenManager: boolean = true] *)
Definition isInsecureServerTokenManager : bool := true.

(** [async getToken()]; the result is the [token] field. *)
Definition getToken : Completion string := Return EmptyString.

(** [async authenticate()] *)
Definition authenticate (token : string) : Completion () := Return ().

End NoopTokenManager.

(** ** The token factory of the IdentityClient test

    [FakeTokenFactory], [jwtKid] and the constants of
    [IdentityClient.test.ts]. Its objects hold numbers and an array next to
    strings. *)

(** A property of an object literal whose value may be [undefined]; such a
    property is left out when the object is serialised into a token. *)
Definition property (name : string) (v : option JSON) (o : gmap string JSON)
    : gmap string JSON :=
  match v with
  | Some v => <[name := v]> o
  | None => o
  end.

Module FakeTokenFactory.

(** The builder behind [new SignJWT(payload)], with the setters the factory
    calls; each is [this._payload = { ...this._payload, claim: value }]. *)
Record SignJWT : Type := mkSignJWT {
  _payload : gmap string JSON;
  _protectedHeader : gmap string JSON
}.

Definition new_SignJWT (payload : gmap string JSON) : SignJWT := mkSignJWT payload ∅.
Definition setProtectedHeader (h : gmap string JSON) (b : SignJWT) : SignJWT :=
  mkSignJWT (_payload b) h.
Definition setIssuer (iss : string) (b : SignJWT) : SignJWT :=
  mkSignJWT (<["iss" := JString iss]> (_payload b)) (_protectedHeader b).
Definition setAudience (aud : string) (b : SignJWT) : SignJWT :=
  mkSignJWT (<["aud" := JString aud]> (_payload b)) (_protectedHeader b).
Definition setSubject (sub : string) (b : SignJWT) : SignJWT :=
  mkSignJWT (<["sub" := JString sub]> (_payload b)) (_protectedHeader b).
(** [setIssuedAt(n)] and [setExpirationTime(n)] with a number. *)
Definition setIssuedAt (iat : Z) (b : SignJWT) : SignJWT :=
  mkSignJWT (<["iat" := JNumber iat]> (_payload b)) (_protectedHeader b).
Definition setExpirationTime (exp : Z) (b : SignJWT) : SignJWT :=
  mkSignJWT (<["exp" := JNumber exp]> (_payload b)) (_protectedHeader b).

(** The part of [jose] the factory and [jwtKid] call, for keys of a key
    pair. *)
Class JoseKeys : Type := {
  KeyLike : Type;
  (** [exportJWK(key)] of a public key *)
  exportJWK : KeyLike → JSONObject;
  (** [builder.sign(privateKey)] *)
  SignJWT_sign : SignJWT → KeyLike → Completion string;
  (** [decodeProtectedHeader(token)] *)
  decodeProtectedHeader : string → Completion (gmap string JSON)
}.

(** Decoding the header of a signed token gives back the header of the
    builder. *)
Definition decode_signed_header `{JoseKeys} : Prop :=
  ∀ (b : SignJWT) (key : KeyLike) (token : string),
    SignJWT_sign b key = Return token →
    decodeProtectedHeader token = Return (_protectedHeader b).

(** JavaScript numbers are doubles. The factory's numbers are whole; what
    [Math.floor(a / b)] and [a + b] give is left to an interface, of which
    only exactness on the safe integers is assumed. *)
Class Float64 : Type := {
  (** [Math.floor(a / b)] *)
  Math_floor_div : Z → Z → Z;
  (** [a + b] *)
  Number_add : Z → Z → Z
}.

(** [Number.isSafeInteger(n)] *)
Definition isSafeInteger (n : Z) : Prop := (- (2 ^ 53 - 1) ≤ n ≤ 2 ^ 53 - 1)%Z.

(** On safe integers, [Math.floor(a / 1000)] is the floor of the exact
    quotient, and a sum that is a safe integer is exact. *)
Definition exact_on_safe_integers `{Float64} : Prop :=
  (∀ a, isSafeInteger a → Math_floor_div a 1000 = (a / 1000)%Z)
  ∧ (∀ a b, isSafeInteger a → isSafeInteger b → isSafeInteger (a + b) →
       Number_add a b = (a + b)%Z).

Section Factory.
Context `{JoseKeys} `{Float64}.

(** What [generateKeyPair('ES256')] resolves to. *)
Record KeyPair : Type := mkKeyPair { publicKey : KeyLike; privateKey : KeyLike }.

(** The constructor's [options]; [keyDurationSeconds] is taken to be a
    whole number, as it is in the test. *)
Record Options : Type := mkOptions { issuer : string; keyDurationSeconds : Z }.

(** [params.claims] *)
Record Claims : Type := mkClaims { sub : string; ent : option (list string) }.

(** The factory: its [options] and its [keys] array, empty at
    construction. *)
Record t : Type := mk { options : Options; keys : list JSONObject }.

Definition new (options : Options) : t := mk options [].

(** The builder on which [issueToken] calls [.sign]. [now] is
    [Date.now()], a whole number of milliseconds, and [kid] the value of
    [uuid()]. *)
Definition issueToken_jwt (options : Options) (claims : Claims) (now : Z)
    (kid : string) : SignJWT :=
  let iss := issuer options in
  let sub := sub claims in
  let ent := JStrings <$> ent claims in
  let aud := "backstage" in
  let iat := Math_floor_div now 1000 in
  let exp := Number_add iat (keyDurationSeconds options) in
  setExpirationTime exp
    (setIssuedAt iat
       (setSubject sub
          (setAudience aud
             (setIssuer iss
                (setProtectedHeader
                   (property "ent" ent
                      {[ "alg" := JString "ES256"; "kid" := JString kid ]})
                   (new_SignJWT
                      (property "ent" ent
                         {[ "iss" := JString iss; "sub" := JString sub;
                            "aud" := JString aud; "iat" := JNumber iat;
                            "exp" := JNumber exp; "kid" := JString kid ]}))))))).

(** [async issueToken(params)]. [pair] is what [generateKeyPair('ES256')]
    resolves to in this call. The key is pushed before the token is
    signed. *)
Definition issueToken (claims : Claims) (now : Z) (pair : KeyPair) (kid : string)
    (this : t) : Completion string * t :=
  let publicKey := <["kid" := kid]> (exportJWK (publicKey pair)) in
  let this := mk (options this) (push (keys this) publicKey) in
  (SignJWT_sign (issueToken_jwt (options this) claims now kid) (privateKey pair), this).

(** [async listPublicKeys()]; the result is the [keys] field. *)
Definition listPublicKeys (this : t) : list JSONObject := keys this.

(** [function jwtKid(jwt)]: [header.kid ?? ''] *)
Definition jwtKid (jwt : string) : Completion JSON :=
  header <- decodeProtectedHeader jwt ;;
  Return (default (JString EmptyString) (header !! "kid")).

(** One call of [issueToken] with what it draws from the clock and the
    random sources, and the factory after a sequence of such calls. *)
Record Issue : Type := mkIssue {
  issue_claims : Claims;
  issue_now : Z;
  issue_pair : KeyPair;
  issue_kid : string
}.

Definition issue (this : t) (i : Issue) : t :=
  snd (issueToken (issue_claims i) (issue_now i) (issue_pair i) (issue_kid i) this).

Definition issueAll (this : t) (calls : list Issue) : t := fold_left issue calls this.

End Factory.
End FakeTokenFactory.

(** ** A reference instance for the keys of a key pair

    A key is named by a string; a token is the serialisation of the header,
    the payload and the name of the signing key. *)

Module SymbolicKeys.

#[local] Instance JSON_countable : Countable JSON.
Proof.
  refine (inj_countable'
            (λ j, match j with
                  | JString s => inl s
                  | JNumber n => inr (inl n)
                  | JStrings l => inr (inr l)
                  end)
            (λ x, match x with
                  | inl s => JString s
                  | inr (inl n) => JNumber n
                  | inr (inr l) => JStrings l
                  end) _).
  by intros [].
Defined.

Definition Compact : Type := gmap string JSON * gmap string JSON * string.

Definition serialize (c : Compact) : string := SymbolicJose.digits (encode c).
Definition parse (s : string) : option Compact := SymbolicJose.undigits s ≫= decode.

Definition symbolic_header (token : string) : Completion (gmap string JSON) :=
  match parse token with
  | None => Throw SymbolicJose.JWSInvalid
  | Some (h, _, _) => Return h
  end.

(** Exact arithmetic: it agrees with doubles on the safe integers. *)
Definition exact : FakeTokenFactory.Float64 := {|
  FakeTokenFactory.Math_floor_div := Z.div;
  FakeTokenFactory.Number_add := Z.add
|}.

Definition symbolic : FakeTokenFactory.JoseKeys := {|
  FakeTokenFactory.KeyLike := string;
  FakeTokenFactory.exportJWK := λ key, {[ "kty" := "EC"; "crv" := "P-256"; "x" := key ]};
  FakeTokenFactory.SignJWT_sign := λ b key,
    Return (serialize (FakeTokenFactory._protectedHeader b,
                       FakeTokenFactory._payload b, key));
  FakeTokenFactory.decodeProtectedHeader := symbolic_header
|}.

End SymbolicKeys.

(** ** Concrete data for the factory *)

Module FactoryExamples.
Import FakeTokenFactory.

(** [keyDurationSeconds] and the factory of the test's [beforeEach]. *)
Definition keyDurationSeconds : Z := 5.
Definition factory : t := new (mkOptions Examples.mockBaseUrl keyDurationSeconds).

Definition first_pair : KeyPair (H := SymbolicKeys.symbolic) :=
  mkKeyPair (H := SymbolicKeys.symbolic) "public-1" "private-1".
Definition second_pair : KeyPair (H := SymbolicKeys.symbolic) :=
  mkKeyPair (H := SymbolicKeys.symbolic) "public-2" "private-2".

Definition foo : Claims := mkClaims "foo" None.
Definition owner : Claims := mkClaims "foo1" (Some ["group:default/team"]).

(** A third pair, of another factory. *)
Definition other_pair : KeyPair (H := SymbolicKeys.symbolic) :=
  mkKeyPair (H := SymbolicKeys.symbolic) "public-3" "private-3".

(** The public key of a private key of the pairs above. *)
Definition public_of (privateKey : string) : string :=
  if bool_decide (privateKey = "private-1") then "public-1"
  else if bool_decide (privateKey = "private-2") then "public-2"
  else if bool_decide (privateKey = "private-3") then "public-3"
  else EmptyString.

(** The claims of a decoded payload. *)
Definition claims_of (p : gmap string JSON) : option IdentityClient.IdentityClaims :=
  match p !! "iss", p !! "sub", p !! "aud", p !! "iat", p !! "exp" with
  | Some (JString iss), Some (JString sub), Some (JString aud),
    Some (JNumber iat), Some (JNumber exp) =>
      Some (IdentityClient.mkClaims iss sub aud iat exp
              (match p !! "ent" with Some (JStrings l) => Some l | _ => None end))
  | _, _, _, _, _ => None
  end.

(** Verification in the reference instance: the token is under the given
    algorithm and was signed with the private key of the given public
    key. *)
Definition verifySignature (key : JSONObject) (alg tok : string)
    : option IdentityClient.IdentityClaims :=
  match SymbolicKeys.parse tok with
  | Some (h, p, privateKey) =>
      if bool_decide (h !! "alg" = Some (JString alg))
         && bool_decide (key !! "x" = Some (public_of privateKey))
      then claims_of p
      else None
  | None => None
  end.

(** The key-set document [{ keys }] as a mapping from key id to key. *)
Definition keyset_of (keys : list JSONObject) : gmap string JSONObject :=
  list_to_map (omap (λ key, (λ kid, (kid, key)) <$> key !! "kid") keys).

(** The token a call resolved to. *)
Definition resolved (r : Completion string) : string :=
  match r with
  | Return token => token
  | Throw _ => EmptyString
  end.

(** The calls of the tests: the factory issues a first token and, 160
    seconds and 2 milliseconds later, one under a second key; another
    factory issues a token under a key of its own. *)
Definition issued1 :=
  issueToken (H0 := SymbolicKeys.exact) owner 990000 first_pair "key-1" factory.
Definition factory1 : t := snd issued1.

Definition issued2 :=
  issueToken (H0 := SymbolicKeys.exact) foo 1150002 second_pair "key-2" factory1.
Definition token2 : string := resolved (fst issued2).
Definition factory2 : t := snd issued2.

Definition forged : string :=
  resolved
    (fst (issueToken (H0 := SymbolicKeys.exact) foo 990000 other_pair "key-3" factory)).

(** The key sets the authority serves after the first and after the second
    token. *)
Definition ks1 : gmap string JSONObject := keyset_of (listPublicKeys factory1).
Definition ks2 : gmap string JSONObject := keyset_of (listPublicKeys factory2).

(** The client of the test's [beforeEach]: ES256 only, a cooldown of 30
    key durations, no skew, times in seconds. *)
Definition client :=
  IdentityClient.authenticate SymbolicKeys.symbolic_header verifySignature
    ["ES256"] (30 * keyDurationSeconds) 0 Examples.mockBaseUrl.

End FactoryExamples.

(** * Properties *)

(** ** The reference instance meets the contract *)

Module SymbolicJoseFacts.
Import SymbolicJose.

Lemma undigits_digits (p : positive) : undigits (digits p) = Some p.
Proof. induction p as [q IH|q IH|]; simpl; rewrite ?IH; reflexivity. Qed.

Lemma parse_serialize (c : Compact) : parse (serialize c) = Some c.
Proof.
  unfold parse, serialize. rewrite undigits_digits. simpl.
  apply decode_encode.
Qed.

Lemma sign_inv (b : SignJWT) (k : Uint8Array) (token : string) :
  symbolic_sign b k = Return token →
  ∃ a, _protectedHeader b !! "alg" = Some a ∧ a ∈ secret_algorithms
       ∧ token = serialize (_protectedHeader b, _payload b, (a, k)).
Proof.
  unfold symbolic_sign. destruct (_protectedHeader b !! "alg") as [a|]; [|discriminate].
  case_bool_decide; [|discriminate]. intros [= <-]. eauto.
Qed.

Lemma verify_inv (token : string) (getKey : JSONObject → Uint8Array) (r : JWTVerifyResult) :
  symbolic_verify token getKey = Return r →
  ∃ h p a, parse token = Some (h, p, (a, getKey h)) ∧ h !! "alg" = Some a
           ∧ a ∈ secret_algorithms ∧ r = mkVerifyResult p h.
Proof.
  unfold symbolic_verify.
  destruct (parse token) as [[[h p] [a k]]|]; [|discriminate].
  destruct (h !! "alg") as [a'|] eqn:Hh; [|discriminate].
  case_bool_decide; [|discriminate].
  destruct (bool_decide (a = a') && bool_decide (k = getKey h)) eqn:E; [|discriminate].
  apply andb_true_iff in E as [Ea Ek].
  apply bool_decide_eq_true in Ea, Ek. subst a k. intros [= <-].
  exists h, p, a'. repeat split; assumption || reflexivity.
Qed.

Lemma sign_returns : @sign_HS256_returns symbolic.
Proof.
  intros b k Halg. simpl. unfold symbolic_sign. rewrite Halg.
  rewrite bool_decide_eq_true_2; [eauto|]. unfold secret_algorithms. set_solver.
Qed.

Lemma accepts_signed : @verify_accepts_signed symbolic.
Proof.
  intros b k token getKey Halg _ _ Hsign Hkey. simpl in *.
  apply sign_inv in Hsign as (a & Ha & Hin & ->).
  unfold symbolic_verify. rewrite parse_serialize, Ha.
  rewrite (bool_decide_eq_true_2 _ Hin).
  rewrite !bool_decide_eq_true_2 by done. reflexivity.
Qed.

Lemma only_equivalent_key : @verify_only_equivalent_key symbolic.
Proof.
  intros b k token getKey r _ _ Hsign Hverify. simpl in *.
  apply sign_inv in Hsign as (a & Ha & Hin & ->).
  apply verify_inv in Hverify as (h & p & a' & Hparse & _).
  rewrite parse_serialize in Hparse. injection Hparse as Hh _ _ Hk.
  by rewrite Hh, Hk.
Qed.

Lemma decodes_signed : @decode_signed symbolic.
Proof.
  intros b k token Hsign. simpl in *.
  apply sign_inv in Hsign as (a & Ha & Hin & ->).
  unfold symbolic_header, symbolic_payload. by rewrite parse_serialize.
Qed.

Lemma only_secret_algorithms : @verify_secret_algorithms symbolic.
Proof.
  intros token getKey r Hverify. simpl in *.
  apply verify_inv in Hverify as (h & p & a & Hparse & Ha & Hin & ->).
  unfold symbolic_header. rewrite Hparse. simpl. eauto.
Qed.

End SymbolicJoseFacts.

Module HmacJoseFacts.
Import HmacJose.

Lemma decode_secret :
  decode "c2VjcmV0" = secret ∧ decode "c2VjcmV0AA" = secret_zero.
Proof. split; reflexivity. Qed.






End HmacJoseFacts.

(** ** ServerTokenManager *)

Section ServerTokenManagerFacts.
Import ServerTokenManager.
Context `{Jose}.
Variable NODE_ENV : option string.

Lemma push_all_decoded (secrets : list string) (acc : list Uint8Array) :
  fold_left (λ keys k, push keys (base64url_decode k)) secrets acc
  = acc ++ (base64url_decode <$> secrets).
Proof.
  revert acc. induction secrets as [|s secrets IH]; intros acc; simpl.
  - by rewrite app_nil_r.
  - rewrite IH. unfold push. by rewrite <- app_assoc.
Qed.

Lemma constructor_nonempty (s : string) (secrets : list string) :
  constructor NODE_ENV (s :: secrets)
  = Return (mk (base64url_decode <$> s :: secrets) (Some (base64url_decode s))).
Proof. unfold constructor. simpl. by rewrite push_all_decoded. Qed.

Lemma constructor_empty (this : t) :
  constructor NODE_ENV [] = Return this →
  NODE_ENV = Some "development" ∧ this = mk [] None.
Proof.
  unfold constructor, not_development. simpl.
  case_bool_decide as Henv; simpl; [discriminate|].
  intros [= <-]. split; [|done]. by destruct (decide (NODE_ENV = Some "development")).
Qed.

Lemma getToken_jwt_alg : _protectedHeader getToken_jwt !! "alg" = Some "HS256".
Proof. reflexivity. Qed.

Lemma getToken_jwt_untimed :
  _payload getToken_jwt !! "exp" = None ∧ _payload getToken_jwt !! "nbf" = None.
Proof. split; reflexivity. Qed.

(** With a non-empty store [getToken] signs with [signingKey] and leaves
    the instance as it is. *)
Lemma getToken_nonempty (jwk : JSONObject) (this : t) :
  verificationKeys this ≠ [] →
  getToken NODE_ENV jwk this = (sign getToken_jwt (signingKey this), this).
Proof.
  intros Hne. unfold getToken.
  rewrite bool_decide_eq_false_2; [done|].
  by destruct (verificationKeys this).
Qed.

(** With an empty store in development [getToken] first pushes the
    decoded generated secret. *)
Lemma getToken_empty_development (jwk : JSONObject) (this : t) :
  verificationKeys this = [] → NODE_ENV = Some "development" →
  let k := base64url_decode (default EmptyString (jwk !! "k")) in
  getToken NODE_ENV jwk this = (SignJWT_sign getToken_jwt k, mk [k] (Some k)).
Proof.
  intros Hnil Henv. unfold getToken, generateKeys, not_development.
  rewrite Hnil, Henv. reflexivity.
Qed.

(** Outside development [getToken] on an empty store throws and leaves the
    instance as it is. *)
Lemma getToken_empty_elsewhere (jwk : JSONObject) (this : t) :
  verificationKeys this = [] → NODE_ENV ≠ Some "development" →
  getToken NODE_ENV jwk this
  = (Throw (Error "Key generation is not supported outside of the dev environment"), this).
Proof.
  intros Hnil Henv. unfold getToken, generateKeys, not_development.
  rewrite Hnil. simpl. by rewrite bool_decide_eq_true_2.
Qed.

(** The loop returns as soon as one key verifies. *)
Lemma authenticate_loop_accepts (token : string) (keys : list Uint8Array)
    (k : Uint8Array) (r : JWTVerifyResult) (verifyError : option JsError) :
  k ∈ keys → jwtVerify token (λ _, k) = Return r →
  authenticate_loop token keys verifyError = Return ().
Proof.
  intros Hin Hverify. revert verifyError.
  induction Hin as [k keys|k k' keys Hin IH]; intros verifyError; simpl.
  - by rewrite Hverify.
  - destruct (jwtVerify token (λ _, k')); [done|apply IH, Hverify].
Qed.

(** When every key fails, the loop throws with the last value assigned to
    [verifyError]. *)
Lemma authenticate_loop_rejects (token : string) (keys : list Uint8Array)
    (verifyError : option JsError) :
  (∀ k, k ∈ keys → ∃ e, jwtVerify token (λ _, k) = Throw e) →
  authenticate_loop token keys verifyError
  = Throw (AuthenticationError ("Invalid server token: " +:+
      template (match last keys with
                | Some k => match jwtVerify token (λ _, k) with
                            | Throw e => Some e
                            | Return _ => None
                            end
                | None => verifyError
                end))).
Proof.
  revert verifyError. induction keys as [|k keys IH]; intros verifyError Hall; [done|].
  simpl. destruct (Hall k) as [e He]; [left|]. rewrite He.
  rewrite IH by (intros k' Hk'; apply Hall; by right).
  destruct keys as [|k' keys]; [by simpl; rewrite He|].
  change (last (k :: k' :: keys)) with (last (k' :: keys)).
  destruct (last (k' :: keys)) eqn:Hlast; [done|].
  by apply last_None in Hlast.
Qed.

Lemma authenticate_returns_iff (token : string) (this : t) :
  authenticate token this = Return ()
  ↔ ∃ k r, k ∈ verificationKeys this ∧ jwtVerify token (λ _, k) = Return r.
Proof.
  unfold authenticate. split.
  - generalize (@None JsError). induction (verificationKeys this) as [|k keys IH];
      intros verifyError; simpl; [discriminate|].
    destruct (jwtVerify token (λ _, k)) as [r|e] eqn:E.
    + intros _. exists k, r. split; [left|done].
    + intros (k' & r & Hin & Hr)%IH. exists k', r. split; [by right|done].
  - intros (k & r & Hin & Hr). by eapply authenticate_loop_accepts.
Qed.

End ServerTokenManagerFacts.

Section ServerTokenManagerClaims.
Import ServerTokenManager.
Context `{Jose}.

(** C1. A manager constructed from a non-empty list of secrets exists,
    its [getToken()] resolves to a token and leaves the instance as it is,
    and [authenticate] of that token on the same instance returns. *)
Theorem getToken_then_authenticate (NODE_ENV : option string)
    (secrets : list string) (jwk : JSONObject) :
  sign_HS256_returns → verify_accepts_signed →
  secrets ≠ [] →
  ∃ this token,
    constructor NODE_ENV secrets = Return this
    ∧ getToken NODE_ENV jwk this = (Return token, this)
    ∧ authenticate token this = Return ().
Proof.
  intros Hsign Hverify Hne. destruct secrets as [|s secrets]; [done|].
  destruct (Hsign getToken_jwt (base64url_decode s) getToken_jwt_alg) as [token Htoken].
  eexists _, token. split; [apply constructor_nonempty|].
  split.
  - rewrite getToken_nonempty by done. simpl. by rewrite Htoken.
  - apply authenticate_returns_iff. simpl.
    exists (base64url_decode s), (mkVerifyResult (_payload getToken_jwt) (_protectedHeader getToken_jwt)).
    split; [left|].
    by apply Hverify with (k := base64url_decode s);
      [apply getToken_jwt_alg|apply getToken_jwt_untimed..| |].
Qed.

(** C7. On a manager constructed with zero secrets, the first
    [getToken()] resolves, the store then holds exactly one key, the
    decoded generated secret, which is the signing key, and
    [authenticate] of the returned token on that instance returns. *)
Theorem first_getToken_generates_signing_key (NODE_ENV : option string)
    (jwk : JSONObject) (this : t) :
  sign_HS256_returns → verify_accepts_signed →
  constructor NODE_ENV [] = Return this →
  let k := base64url_decode (default EmptyString (jwk !! "k")) in
  ∃ token,
    getToken NODE_ENV jwk this = (Return token, mk [k] (Some k))
    ∧ authenticate token (mk [k] (Some k)) = Return ().
Proof.
  intros Hsign Hverify [Henv ->]%constructor_empty k.
  destruct (Hsign getToken_jwt k getToken_jwt_alg) as [token Htoken].
  exists token. split.
  - rewrite getToken_empty_development by done. by rewrite <- Htoken.
  - apply authenticate_returns_iff. simpl.
    exists k, (mkVerifyResult (_payload getToken_jwt) (_protectedHeader getToken_jwt)).
    split; [left|].
    by apply Hverify with (k := k);
      [apply getToken_jwt_alg|apply getToken_jwt_untimed..| |].
Qed.

(** C10. On a manager whose store is empty, [authenticate] throws an
    [AuthenticationError] for every token, and the value it wraps is
    [undefined]: no key was tried. *)
Theorem authenticate_empty_store (token : string) (this : t) :
  verificationKeys this = [] →
  authenticate token this
  = Throw (AuthenticationError "Invalid server token: undefined").
Proof. intros Hnil. unfold authenticate. by rewrite Hnil. Qed.

(** C3, as amended. With no secrets, construction throws exactly when
    [NODE_ENV] is not ["development"], and in development it gives an
    instance with an empty store; [fromConfig] without configured keys
    does the same. *)
Theorem empty_secrets_fail_outside_development (NODE_ENV : option string) :
  constructor NODE_ENV []
  = (if decide (NODE_ENV = Some "development") then Return (mk [] None)
     else Throw (Error "No secrets provided when constructing ServerTokenManager"))
  ∧ ∀ keys, keys = None ∨ keys = Some [] →
    fromConfig NODE_ENV keys
    = (if decide (NODE_ENV = Some "development")
       then Return (mk [] None,
              ["Generated a secret for backend-to-backend authentication: DEVELOPMENT USE ONLY."])
       else Throw (Error "You must configure at least one key in backend.auth.keys for production.")).
Proof.
  assert (Hctor : constructor NODE_ENV []
    = (if decide (NODE_ENV = Some "development") then Return (mk [] None)
       else Throw (Error "No secrets provided when constructing ServerTokenManager"))).
  { unfold constructor, not_development. simpl.
    destruct (decide (NODE_ENV = Some "development")) as [Henv|Henv].
    - by rewrite bool_decide_eq_false_2 by (by intros []).
    - by rewrite bool_decide_eq_true_2. }
  split; [exact Hctor|].
  intros keys [-> | ->]; unfold fromConfig; rewrite Hctor; unfold not_development;
    destruct (decide (NODE_ENV = Some "development")) as [Henv|Henv]; simpl.
  all: first [by rewrite bool_decide_eq_false_2 by (by intros [])
             |by rewrite bool_decide_eq_true_2].
Qed.

(** What [getToken] resolves to is what signing the builder with the
    signing key gives. *)
Lemma getToken_signs (NODE_ENV : option string) (jwk : JSONObject)
    (this that : t) (token : string) :
  getToken NODE_ENV jwk this = (Return token, that) →
  ∃ k, signingKey that = Some k ∧ SignJWT_sign getToken_jwt k = Return token.
Proof.
  unfold getToken.
  destruct (if bool_decide (length (verificationKeys this) = 0)
            then generateKeys NODE_ENV jwk this else (Return (), this)) as [[[]|e] this'];
    [|discriminate].
  intros [= Hsign <-]. destruct (signingKey this') as [k|]; [eauto|discriminate].
Qed.

(** C9, as amended. A token [getToken()] resolves to is signed with the
    signing key; its protected header is [{alg: HS256, sub:
    backstage-server}] and its payload holds exactly the two claims [alg =
    HS256] and [sub = backstage-server]. *)
Theorem getToken_token_shape (NODE_ENV : option string) (jwk : JSONObject)
    (this that : t) (token : string) :
  decode_signed →
  getToken NODE_ENV jwk this = (Return token, that) →
  (∃ k, signingKey that = Some k ∧ SignJWT_sign getToken_jwt k = Return token)
  ∧ decodeProtectedHeader token
    = Return {[ "alg" := "HS256"; "sub" := "backstage-server" ]}
  ∧ decodeJwt token
    = Return {[ "alg" := "HS256"; "sub" := "backstage-server" ]}.
Proof.
  intros Hdecode (k & Hkey & Hsign)%getToken_signs.
  split; [eauto|]. destruct (Hdecode _ _ _ Hsign) as [-> ->].
  split; reflexivity.
Qed.

(** C2, as amended. A token whose header declares an algorithm that
    [jwtVerify] does not apply to a secret, such as ["none"], is rejected
    with an [AuthenticationError], whatever its payload and signature. *)
Theorem authenticate_rejects_inapplicable_alg (token : string)
    (header : JSONObject) (alg : string) (this : t) :
  verify_secret_algorithms →
  decodeProtectedHeader token = Return header →
  header !! "alg" = Some alg → alg ∉ secret_algorithms →
  ∃ msg, authenticate token this = Throw (AuthenticationError msg).
Proof.
  intros Hlib Hheader Halg Hnot. unfold authenticate.
  rewrite authenticate_loop_rejects; [eauto|].
  intros k _. destruct (jwtVerify token (λ _, k)) as [r|e] eqn:E; [|eauto].
  destruct (Hlib _ _ _ E) as [Hr (a & Ha & Hin)].
  rewrite Hheader in Hr. injection Hr as Hr.
  rewrite <- Hr, Halg in Ha. by injection Ha as <-.
Qed.

End ServerTokenManagerClaims.

Section ServerTokenManagerStore.
Import ServerTokenManager.
Context `{Jose}.
Variable NODE_ENV : option string.

Lemma constructor_signingKey (secrets : list string) (this : t) :
  constructor NODE_ENV secrets = Return this →
  signingKey this = verificationKeys this !! 0.
Proof.
  unfold constructor.
  destruct (bool_decide (length secrets = 0) && not_development NODE_ENV);
    [discriminate|].
  by intros [= <-].
Qed.

(** A call either leaves the instance as it is, or finds the store empty
    and leaves it with one key, the signing key. *)
Lemma step_cases (this : t) (c : Call) :
  step NODE_ENV this c = this
  ∨ (verificationKeys this = [] ∧ ∃ k, step NODE_ENV this c = mk [k] (Some k)).
Proof.
  destruct c as [jwk|token]; [|by left]. simpl. unfold getToken.
  case_bool_decide as Hlen; [|by left].
  unfold generateKeys. destruct (not_development NODE_ENV); [by left|].
  right. destruct (verificationKeys this) as [|k0 keys] eqn:Hkeys; [|done].
  split; [done|]. by eexists.
Qed.

Lemma step_signingKey (this : t) (c : Call) :
  signingKey this = verificationKeys this !! 0 →
  signingKey (step NODE_ENV this c) = verificationKeys (step NODE_ENV this c) !! 0.
Proof.
  intros Hinv. destruct (step_cases this c) as [-> | [_ [k ->]]]; done.
Qed.

Lemma step_prefix (this : t) (c : Call) :
  verificationKeys this `prefix_of` verificationKeys (step NODE_ENV this c).
Proof.
  destruct (step_cases this c) as [-> | [-> _]]; [done|apply prefix_nil].
Qed.

Lemma trace_signingKey (this that : t) (cs : list Call) :
  signingKey this = verificationKeys this !! 0 →
  that ∈ trace NODE_ENV this cs →
  signingKey that = verificationKeys that !! 0.
Proof.
  revert this. induction cs as [|c cs IH]; intros this Hinv; simpl.
  - by intros ->%list_elem_of_singleton.
  - intros [->|Hin]%elem_of_cons; [done|].
    eapply IH; [|exact Hin]. by apply step_signingKey.
Qed.

Lemma trace_prefix (this that : t) (cs : list Call) :
  that ∈ trace NODE_ENV this cs →
  verificationKeys this `prefix_of` verificationKeys that.
Proof.
  revert this. induction cs as [|c cs IH]; intros this; simpl.
  - by intros ->%list_elem_of_singleton.
  - intros [->|Hin]%elem_of_cons; [done|].
    etrans; [apply step_prefix|]. by apply IH.
Qed.

Lemma trace_head (this : t) (cs : list Call) :
  ∃ rest, trace NODE_ENV this cs = this :: rest.
Proof. destruct cs; simpl; eauto. Qed.

(** Once the store holds a key, no call changes it. *)
Lemma mutations_nonempty (this : t) (cs : list Call) :
  verificationKeys this ≠ [] → mutations (trace NODE_ENV this cs) = 0.
Proof.
  revert this. induction cs as [|c cs IH]; intros this Hne; [done|].
  simpl. destruct (trace_head (step NODE_ENV this c) cs) as [rest Hrest].
  specialize (IH (step NODE_ENV this c)). rewrite Hrest in IH |- *.
  destruct (step_cases this c) as [Hsame | [Hnil _]]; [|done].
  rewrite Hsame in IH |- *. rewrite bool_decide_eq_true_2 by done. by rewrite IH.
Qed.

Lemma mutations_at_most_one (this : t) (cs : list Call) :
  mutations (trace NODE_ENV this cs) ≤ 1.
Proof.
  revert this. induction cs as [|c cs IH]; intros this; simpl; [lia|].
  destruct (trace_head (step NODE_ENV this c) cs) as [rest Hrest].
  pose proof (IH (step NODE_ENV this c)) as IHc.
  pose proof (mutations_nonempty (step NODE_ENV this c) cs) as Hzero.
  rewrite Hrest in IHc, Hzero |- *.
  destruct (step_cases this c) as [Hsame | [Hnil [k Hk]]].
  - rewrite Hsame in IHc |- *. rewrite bool_decide_eq_true_2 by done. lia.
  - rewrite Hk in Hzero |- *. rewrite Hzero by done. case_bool_decide; lia.
Qed.

Lemma trace_adjacent (this a b : t) (cs : list Call) (i : nat) :
  trace NODE_ENV this cs !! i = Some a →
  trace NODE_ENV this cs !! S i = Some b →
  ∃ c, b = step NODE_ENV a c.
Proof.
  revert this i. induction cs as [|c cs IH]; intros this i; simpl.
  - destruct i; discriminate.
  - destruct i as [|i]; simpl.
    + intros [= ->]. destruct (trace_head (step NODE_ENV a c) cs) as [rest ->].
      intros [= <-]. eauto.
    + apply IH.
Qed.

(** A part of a call either leaves the instance as it is or pushes one key
    and sets the signing key to the first key. *)
Lemma resume_cases (jwk : JSONObject) (task : Task) (this : t) :
  snd (resume jwk task this) = this
  ∨ ∃ k, task = AwaitExportJWK
         ∧ snd (resume jwk task this)
           = mk (verificationKeys this ++ [k]) ((verificationKeys this ++ [k]) !! 0).
Proof.
  destruct task as [| |[[]|e]|r|r]; simpl; eauto.
Qed.

Lemma react_cases (s : System) (e : Event) :
  instance (react NODE_ENV s e) = instance s
  ∨ ∃ k, instance (react NODE_ENV s e)
         = mk (verificationKeys (instance s) ++ [k])
              ((verificationKeys (instance s) ++ [k]) !! 0).
Proof.
  destruct e as [|token|i jwk]; simpl; [by left..|].
  destruct (tasks s !! i) as [task|]; [|by left].
  destruct (resume_cases jwk task (instance s)) as [Hsame | (k & _ & Hpush)];
    destruct (resume jwk task (instance s)) as [task' this']; simpl in *; subst; eauto.
Qed.

Lemma react_signingKey (s : System) (e : Event) :
  signingKey (instance s) = verificationKeys (instance s) !! 0 →
  signingKey (instance (react NODE_ENV s e))
  = verificationKeys (instance (react NODE_ENV s e)) !! 0.
Proof.
  intros Hinv. by destruct (react_cases s e) as [-> | [k ->]].
Qed.

Lemma react_prefix (s : System) (e : Event) :
  verificationKeys (instance s) `prefix_of` verificationKeys (instance (react NODE_ENV s e)).
Proof.
  destruct (react_cases s e) as [-> | [k ->]]; [done|]. simpl. by apply prefix_app_r.
Qed.

Lemma history_signingKey (s s' : System) (es : list Event) :
  signingKey (instance s) = verificationKeys (instance s) !! 0 →
  s' ∈ history NODE_ENV s es →
  signingKey (instance s') = verificationKeys (instance s') !! 0.
Proof.
  revert s. induction es as [|e es IH]; intros s Hinv; simpl.
  - by intros ->%list_elem_of_singleton.
  - intros [->|Hin]%elem_of_cons; [done|].
    eapply IH; [|exact Hin]. by apply react_signingKey.
Qed.

Lemma history_prefix (s s' : System) (es : list Event) :
  s' ∈ history NODE_ENV s es →
  verificationKeys (instance s) `prefix_of` verificationKeys (instance s').
Proof.
  revert s. induction es as [|e es IH]; intros s; simpl.
  - by intros ->%list_elem_of_singleton.
  - intros [->|Hin]%elem_of_cons; [done|].
    etrans; [apply react_prefix|]. by apply IH.
Qed.

Lemma history_head (s : System) (es : list Event) :
  ∃ rest, history NODE_ENV s es = s :: rest.
Proof. destruct es; simpl; eauto. Qed.

Lemma history_adjacent (s a b : System) (es : list Event) (i : nat) :
  history NODE_ENV s es !! i = Some a →
  history NODE_ENV s es !! S i = Some b →
  ∃ e, b = react NODE_ENV a e.
Proof.
  revert s i. induction es as [|e es IH]; intros s i; simpl.
  - destruct i; discriminate.
  - destruct i as [|i]; simpl.
    + intros [= ->]. destruct (history_head (react NODE_ENV a e) es) as [rest ->].
      intros [= <-]. eauto.
    + apply IH.
Qed.

(** On a non-empty store no call is ever inside [generateKeys], and the
    instance stays as it is. *)
Lemma react_quiet (s : System) (e : Event) :
  verificationKeys (instance s) ≠ [] →
  Forall (λ task, task ≠ AwaitGenerateSecret ∧ task ≠ AwaitExportJWK) (tasks s) →
  instance (react NODE_ENV s e) = instance s
  ∧ Forall (λ task, task ≠ AwaitGenerateSecret ∧ task ≠ AwaitExportJWK)
      (tasks (react NODE_ENV s e)).
Proof.
  intros Hne Hquiet. destruct e as [|token|i jwk]; simpl; [|done|].
  - split; [done|]. apply Forall_app. split; [done|]. apply Forall_singleton.
    unfold invoke. rewrite bool_decide_eq_false_2; [done|].
    by destruct (verificationKeys (instance s)).
  - destruct (tasks s !! i) as [task|] eqn:Htask; [|done].
    pose proof (proj1 (Forall_lookup _ _) Hquiet i task Htask) as [Hsecret Hjwk].
    destruct task as [| |[[]|e]|r|r]; simpl; try done;
      (split; [done|]); apply Forall_insert; done.
Qed.

Lemma history_quiet (s s' : System) (es : list Event) :
  verificationKeys (instance s) ≠ [] →
  Forall (λ task, task ≠ AwaitGenerateSecret ∧ task ≠ AwaitExportJWK) (tasks s) →
  s' ∈ history NODE_ENV s es →
  instance s' = instance s.
Proof.
  revert s. induction es as [|e es IH]; intros s Hne Hquiet; simpl.
  - by intros ->%list_elem_of_singleton.
  - intros [->|Hin]%elem_of_cons; [done|].
    destruct (react_quiet s e Hne Hquiet) as [Hsame Hquiet'].
    rewrite <- Hsame. apply IH; [by rewrite Hsame|done..].
Qed.

Lemma react_resume_last (this : t) (ts : list Task) (task : Task) (jwk : JSONObject) :
  react NODE_ENV (mkSystem this (ts ++ [task])) (Resume (length ts) jwk)
  = mkSystem (snd (resume jwk task this)) (ts ++ [fst (resume jwk task this)]).
Proof.
  simpl. rewrite list_lookup_middle by done.
  destruct (resume jwk task this) as [task' this']. simpl. f_equal.
  rewrite insert_app_r_alt by done. by rewrite Nat.sub_diag.
Qed.

(** An awaited call does what [getToken] does. *)
Lemma awaited_is_getToken (s : System) (jwk : JSONObject) :
  fold_left (react NODE_ENV) (awaited s jwk) s
  = mkSystem (snd (getToken NODE_ENV jwk (instance s)))
             (tasks s ++ [Settled (fst (getToken NODE_ENV jwk (instance s)))]).
Proof.
  destruct s as [this ts]. unfold awaited. cbn [fold_left tasks instance].
  change (react NODE_ENV (mkSystem this ts) GetToken)
    with (mkSystem this (ts ++ [invoke NODE_ENV this])).
  unfold invoke, getToken, generateKeys.
  destruct (bool_decide (length (verificationKeys this) = 0));
    [destruct (not_development NODE_ENV)|];
    rewrite !react_resume_last; reflexivity.
Qed.

(** C8, as amended. From construction on and along every interleaving of
    [getToken] and [authenticate] calls, the signing key is the first
    verification key, hence one of them when the store is non-empty; a
    part of a call changes the store by a push of one key or not at all,
    so the keys stored stay in place and in order; on a manager constructed
    from secrets the store never changes. When each call is awaited before
    the next is made, which is the same as running [getToken] as a whole,
    the store changes at most once, and only from empty to one generated
    key. *)
Theorem signing_key_heads_store (secrets : list string) (this : t) :
  constructor NODE_ENV secrets = Return this →
  (∀ es s, s ∈ history NODE_ENV (mkSystem this []) es →
     signingKey (instance s) = verificationKeys (instance s) !! 0
     ∧ (verificationKeys (instance s) ≠ [] →
        ∃ k, signingKey (instance s) = Some k ∧ k ∈ verificationKeys (instance s))
     ∧ verificationKeys this `prefix_of` verificationKeys (instance s))
  ∧ (∀ es i a b,
       history NODE_ENV (mkSystem this []) es !! i = Some a →
       history NODE_ENV (mkSystem this []) es !! S i = Some b →
       verificationKeys (instance b) = verificationKeys (instance a)
       ∨ ∃ k, verificationKeys (instance b) = verificationKeys (instance a) ++ [k])
  ∧ (secrets ≠ [] →
     ∀ es s, s ∈ history NODE_ENV (mkSystem this []) es → instance s = this)
  ∧ (∀ s jwk,
       fold_left (react NODE_ENV) (awaited s jwk) s
       = mkSystem (snd (getToken NODE_ENV jwk (instance s)))
                  (tasks s ++ [Settled (fst (getToken NODE_ENV jwk (instance s)))]))
  ∧ (∀ cs,
       mutations (trace NODE_ENV this cs) ≤ 1
       ∧ ∀ i a b,
           trace NODE_ENV this cs !! i = Some a →
           trace NODE_ENV this cs !! S i = Some b →
           verificationKeys a ≠ verificationKeys b →
           verificationKeys a = [] ∧ ∃ k, verificationKeys b = [k]).
Proof.
  intros Hctor. pose proof (constructor_signingKey _ _ Hctor) as Hinv.
  split; [|split; [|split; [|split]]].
  - intros es s Hs.
    pose proof (history_signingKey (mkSystem this []) s es Hinv Hs) as Hhead.
    split; [done|]. split; [|by apply (history_prefix (mkSystem this []) s es)].
    intros Hne. rewrite Hhead.
    destruct (verificationKeys (instance s)) as [|k keys]; [done|].
    exists k. split; [done|left].
  - intros es i a b Ha Hb. destruct (history_adjacent _ _ _ _ _ Ha Hb) as [e ->].
    destruct (react_cases a e) as [-> | [k ->]]; [by left|right]. by exists k.
  - intros Hne es s Hs.
    apply (history_quiet (mkSystem this []) s es); [|done..].
    destruct secrets as [|secret secrets]; [done|].
    rewrite constructor_nonempty in Hctor. by injection Hctor as <-.
  - apply awaited_is_getToken.
  - intros cs. split; [apply mutations_at_most_one|].
    intros i a b Ha Hb Hchanged. destruct (trace_adjacent _ _ _ _ _ Ha Hb) as [c ->].
    destruct (step_cases a c) as [Hsame | [Hnil [k Hk]]].
    + by rewrite Hsame in Hchanged.
    + split; [done|]. exists k. by rewrite Hk.
Qed.

End ServerTokenManagerStore.

Section ServerTokenManagerRejection.
Import ServerTokenManager.
Context `{Jose}.



End ServerTokenManagerRejection.

(** ** IdentityClient *)

Section IdentityClientClaims.
Import IdentityClient.
Variable decodeProtectedHeader : string → Completion (gmap string JSON).
Variable verifySignature : JSONObject → string → string → option IdentityClaims.
Variable algorithms : list string.
Variable cooldown skew : Z.
Variable issuer : string.

Local Abbreviation authenticate :=
  (IdentityClient.authenticate decodeProtectedHeader verifySignature algorithms
     cooldown skew issuer).
Local Abbreviation lookupKey := (IdentityClient.lookupKey cooldown).

Lemma lookupKey_fetches (K : string) (now : Z)
    (remote : Completion (gmap string JSONObject)) (c : RemoteKeySetCache) :
  snd (lookupKey K now remote c) ≤ 1.
Proof.
  unfold IdentityClient.lookupKey.
  destruct (keys c !! K); simpl; [lia|].
  destruct (may_refresh cooldown c now); simpl; [|lia].
  destruct remote as [ks|e]; simpl; [|lia].
  destruct (ks !! K); simpl; lia.
Qed.

(** What [authenticate] does once the header of a non-empty token is
    decoded. *)
Lemma authenticate_decoded (tok : string) (header : gmap string JSON) (kid alg : string)
    (now : Z) (remote : Completion (gmap string JSONObject)) (c : RemoteKeySetCache) :
  tok ≠ EmptyString →
  decodeProtectedHeader tok = Return header →
  header !! "kid" = Some (JString kid) →
  header !! "alg" = Some (JString alg) →
  authenticate (Some tok) now remote c
  = (let '(r, c', n) := lookupKey kid now remote c in
     match r with
     | Throw e => (Throw (AuthenticationError (Error_toString e)), c', n)
     | Return key =>
         if key_allows key alg && bool_decide (alg ∈ algorithms)
         then
           match verifySignature key alg tok with
           | Some cl =>
               if claims_valid skew issuer now cl
               then (Return (toResponse tok cl), c', n)
               else (Throw (AuthenticationError "claim validation failed"), c', n)
           | None => (Throw (AuthenticationError "signature verification failed"), c', n)
           end
         else (Throw (AuthenticationError "algorithm not allowed"), c', n)
     end).
Proof.
  intros Hne Hheader Hkid Halg. unfold IdentityClient.authenticate.
  destruct tok as [|a tok]; [done|]. by rewrite Hheader, Hkid, Halg.
Qed.

Lemma authenticate_fetches (tok : option string) (now : Z)
    (remote : Completion (gmap string JSONObject)) (c : RemoteKeySetCache) :
  snd (authenticate tok now remote c) ≤ 1.
Proof.
  unfold IdentityClient.authenticate.
  destruct tok as [[|a tok]|]; simpl; [lia| |lia].
  destruct (decodeProtectedHeader _) as [header|e]; simpl; [|lia].
  destruct (header !! "kid") as [[kid| |]|]; simpl; try lia.
  destruct (header !! "alg") as [[alg| |]|]; simpl; try lia.
  pose proof (lookupKey_fetches kid now remote c) as Hn.
  destruct (lookupKey kid now remote c) as [[[key|e] c'] n]; simpl in *; [|lia].
  repeat (case_match; simpl; try lia).
Qed.

Lemma claims_valid_intro (now : Z) (cl : IdentityClaims) :
  iss cl = issuer → aud cl = audience → (now < exp cl)%Z → (iat cl ≤ now + skew)%Z →
  claims_valid skew issuer now cl = true.
Proof.
  intros. unfold claims_valid. by rewrite !bool_decide_eq_true_2.
Qed.

(** A verified token under a resolved key gives the identity record. *)
Lemma key_allows_intro (key : JSONObject) (alg : string) :
  (∀ a, key !! "alg" = Some a → a = alg) → key_allows key alg = true.
Proof.
  intros Hkey. unfold key_allows. destruct (key !! "alg") as [a|]; [|done].
  by rewrite (Hkey a), bool_decide_eq_true_2.
Qed.

Lemma authenticate_verified (tok : string) (header : gmap string JSON) (kid alg : string)
    (key : JSONObject) (cl : IdentityClaims) (now : Z)
    (remote : Completion (gmap string JSONObject)) (c c' : RemoteKeySetCache) (n : nat) :
  tok ≠ EmptyString →
  decodeProtectedHeader tok = Return header →
  header !! "kid" = Some (JString kid) →
  header !! "alg" = Some (JString alg) →
  lookupKey kid now remote c = (Return key, c', n) →
  (∀ a, key !! "alg" = Some a → a = alg) → alg ∈ algorithms →
  verifySignature key alg tok = Some cl →
  claims_valid skew issuer now cl = true →
  authenticate (Some tok) now remote c = (Return (toResponse tok cl), c', n).
Proof.
  intros Hne Hheader Hkid Halg Hlookup Hkeyalg Hallowed Hsig Hclaims.
  rewrite (authenticate_decoded _ _ _ _ _ _ _ Hne Hheader Hkid Halg), Hlookup.
  by rewrite key_allows_intro, bool_decide_eq_true_2, Hsig, Hclaims by done.
Qed.


(** C4. One call performs at most one fetch of the key set. When the
    token's key id is in neither the cache nor the refreshed key set, the
    call fails after that one fetch, and until the cooldown has elapsed a
    call with any key id the refreshed set lacks fails without a fetch.
    When the cooldown has elapsed since the last fetch, a token signed
    under a key id that is new at the authority is fetched for once and
    authenticates. *)
Theorem refresh_once_per_lookup :
  (∀ tok now remote c, snd (authenticate tok now remote c) ≤ 1)
  ∧ (∀ K now remote c, snd (lookupKey K now remote c) ≤ 1)
  ∧ (∀ (tok : string) (header : gmap string JSON) (kid alg : string) (now : Z)
       (ks : gmap string JSONObject) (c : RemoteKeySetCache),
      tok ≠ EmptyString →
      decodeProtectedHeader tok = Return header →
      header !! "kid" = Some (JString kid) →
      header !! "alg" = Some (JString alg) →
      keys c !! kid = None → may_refresh cooldown c now = true →
      ks !! kid = None →
      (∃ msg, authenticate (Some tok) now (Return ks) c
              = (Throw (AuthenticationError msg), mkCache ks (Some now), 1))
      ∧ ∀ (tok' : string) (header' : gmap string JSON) (kid' alg' : string) (now' : Z)
          (remote' : Completion (gmap string JSONObject)),
          tok' ≠ EmptyString →
          decodeProtectedHeader tok' = Return header' →
          header' !! "kid" = Some (JString kid') →
          header' !! "alg" = Some (JString alg') →
          ks !! kid' = None →
          (now ≤ now' < now + cooldown)%Z →
          ∃ msg, authenticate (Some tok') now' remote' (mkCache ks (Some now))
                 = (Throw (AuthenticationError msg), mkCache ks (Some now), 0))
  ∧ (∀ (tok : string) (header : gmap string JSON) (kid alg : string) (key : JSONObject)
       (cl : IdentityClaims) (now fetched : Z) (ks : gmap string JSONObject)
       (c : RemoteKeySetCache),
      tok ≠ EmptyString →
      decodeProtectedHeader tok = Return header →
      header !! "kid" = Some (JString kid) →
      header !! "alg" = Some (JString alg) →
      keys c !! kid = None →
      lastFetched c = Some fetched → (fetched + cooldown ≤ now)%Z →
      ks !! kid = Some key →
      (∀ a, key !! "alg" = Some a → a = alg) → alg ∈ algorithms →
      verifySignature key alg tok = Some cl →
      iss cl = issuer → aud cl = audience → (now < exp cl)%Z → (iat cl ≤ now + skew)%Z →
      authenticate (Some tok) now (Return ks) c
      = (Return (toResponse tok cl), mkCache ks (Some now), 1)).
Proof.
  split; [apply authenticate_fetches|]. split; [apply lookupKey_fetches|]. split.
  - intros tok header kid alg now ks c Hne Hheader Hkid Halg Hmiss Hrefresh Hstill.
    split.
    + rewrite (authenticate_decoded _ _ _ _ _ _ _ Hne Hheader Hkid Halg).
      unfold IdentityClient.lookupKey. rewrite Hmiss, Hrefresh, Hstill. eauto.
    + intros tok' header' kid' alg' now' remote' Hne' Hheader' Hkid' Halg' Hmiss' Hwindow.
      rewrite (authenticate_decoded _ _ _ _ _ _ _ Hne' Hheader' Hkid' Halg').
      unfold IdentityClient.lookupKey, may_refresh. simpl. rewrite Hmiss'.
      rewrite bool_decide_eq_false_2 by lia. eauto.
  - intros tok header kid alg key cl now fetched ks c Hne Hheader Hkid Halg Hmiss
      Hlast Hcool Hnew Hkeyalg Hallowed Hsig Hiss Haud Hexp Hiat.
    apply authenticate_verified with header kid alg key; try done.
    + unfold IdentityClient.lookupKey, may_refresh. rewrite Hmiss, Hlast.
      by rewrite bool_decide_eq_true_2, Hnew by done.
    + by apply claims_valid_intro.
Qed.

End IdentityClientClaims.

(** ** Further properties of ServerTokenManager *)

Section ServerTokenManagerConstruction.
Import ServerTokenManager.
Context `{Jose}.
Variable NODE_ENV : option string.

Lemma mapM_getString (keys : list (gmap string JSON)) (secrets : list string) :
  Forall2 (λ c s, c !! "secret" = Some (JString s) ∧ s ≠ EmptyString) keys secrets →
  mapM (getString "secret") keys = Return secrets.
Proof.
  induction 1 as [|c s keys secrets [Hc Hs] _ IH]; [done|].
  simpl. unfold getString at 1. rewrite Hc, bool_decide_eq_false_2 by done.
  by rewrite IH.
Qed.

Lemma mapM_getString_length (keys : list (gmap string JSON)) (secrets : list string) :
  mapM (getString "secret") keys = Return secrets → length secrets = length keys.
Proof.
  revert secrets. induction keys as [|c keys IH]; intros secrets; simpl.
  - by intros [= <-].
  - destruct (getString "secret" c) as [s|e]; simpl; [|discriminate].
    destruct (mapM (getString "secret") keys) as [ss|e]; simpl; [|discriminate].
    intros [= <-]. simpl. by rewrite (IH ss).
Qed.

Lemma mapM_getString_missing (keys : list (gmap string JSON)) (c : gmap string JSON) :
  c ∈ keys → c !! "secret" = None →
  ∃ e, mapM (getString "secret") keys = Throw e.
Proof.
  intros Hin Hmissing.
  induction Hin as [c keys|c c' keys Hin IH]; simpl.
  - unfold getString at 1. rewrite Hmissing. simpl. by eexists.
  - destruct (getString "secret" c') as [s|e]; simpl; [|by eexists].
    destruct (IH Hmissing) as [e ->]. simpl. by eexists.
Qed.

(** X1. A constructed instance holds one key per secret, in the order of
    the secrets, each the decoding of its secret, and signs with the
    first. *)
Theorem constructor_decodes_in_order (secrets : list string) (this : t) :
  constructor NODE_ENV secrets = Return this →
  verificationKeys this = base64url_decode <$> secrets
  ∧ signingKey this = base64url_decode <$> head secrets
  ∧ length (verificationKeys this) = length secrets.
Proof.
  unfold constructor.
  destruct (bool_decide (length secrets = 0) && not_development NODE_ENV);
    [discriminate|].
  intros [= <-]. simpl. rewrite push_all_decoded. simpl.
  split; [done|]. split; [by destruct secrets|]. by rewrite length_fmap.
Qed.

(** X2. With at least one configured key, each having a non-empty string
    as its [secret], [fromConfig] returns in every environment, production
    included, warns of nothing, and gives the instance with the decoded
    secrets in the order of the configuration. *)
Theorem fromConfig_configured (keys : list (gmap string JSON)) (secrets : list string) :
  keys ≠ [] →
  Forall2 (λ c s, c !! "secret" = Some (JString s) ∧ s ≠ EmptyString) keys secrets →
  fromConfig NODE_ENV (Some keys)
  = Return (mk (base64url_decode <$> secrets) (base64url_decode <$> head secrets), []).
Proof.
  intros Hne Hsecrets. destruct Hsecrets as [|c s keys secrets Hc Hrest]; [done|].
  unfold fromConfig.
  rewrite (mapM_getString (c :: keys) (s :: secrets)) by by constructor.
  cbv [bind]. by rewrite constructor_nonempty.
Qed.

(** X3. If a configured key lacks its [secret], [fromConfig] throws in
    every environment: it neither constructs an instance from the other
    keys nor falls back to a generated key. *)
Theorem fromConfig_missing_secret (keys : list (gmap string JSON)) (c : gmap string JSON) :
  c ∈ keys → c !! "secret" = None →
  ∃ e, fromConfig NODE_ENV (Some keys) = Throw e.
Proof.
  intros Hin Hmissing.
  destruct (mapM_getString_missing keys c Hin Hmissing) as [e He].
  destruct keys as [|c' keys]; [by apply elem_of_nil in Hin|].
  unfold fromConfig. rewrite He. simpl. by eexists.
Qed.

(** X4. Whatever [fromConfig] returns either has a non-empty store and no
    warning, or was made without configured keys in development: then the
    store is empty and exactly the one warning was logged. *)
Theorem fromConfig_empty_store_only_in_development
    (keys : option (list (gmap string JSON))) (this : t) (warnings : list string) :
  fromConfig NODE_ENV keys = Return (this, warnings) →
  (verificationKeys this ≠ [] ∧ signingKey this = verificationKeys this !! 0
   ∧ warnings = [])
  ∨ (NODE_ENV = Some "development" ∧ (keys = None ∨ keys = Some [])
     ∧ this = mk [] None
     ∧ warnings = ["Generated a secret for backend-to-backend authentication: DEVELOPMENT USE ONLY."]).
Proof.
  assert (Hfallback : ∀ keys', keys' = None ∨ keys' = Some [] →
    fromConfig NODE_ENV keys' = Return (this, warnings) →
    NODE_ENV = Some "development" ∧ this = mk [] None
    ∧ warnings = ["Generated a secret for backend-to-backend authentication: DEVELOPMENT USE ONLY."]).
  { intros keys' Hkeys'.
    assert (fromConfig NODE_ENV keys'
            = if not_development NODE_ENV
              then Throw (Error "You must configure at least one key in backend.auth.keys for production.")
              else m <- constructor NODE_ENV [] ;;
                   Return (m, ["Generated a secret for backend-to-backend authentication: DEVELOPMENT USE ONLY."]))
      as -> by (by destruct Hkeys' as [-> | ->]).
    unfold constructor, not_development. simpl.
    case_bool_decide as Henv; [discriminate|]. simpl.
    intros [= <- <-]. split; [|done].
    by destruct (decide (NODE_ENV = Some "development")). }
  destruct keys as [[|c keys]|].
  - intros Hret. right. destruct (Hfallback (Some []) (or_intror eq_refl) Hret) as (? & ? & ?).
    eauto.
  - intros Hret. left. unfold fromConfig in Hret.
    destruct (mapM (getString "secret") (c :: keys)) as [secrets|e] eqn:Hsecrets;
      [|discriminate].
    apply mapM_getString_length in Hsecrets.
    destruct secrets as [|s secrets]; [discriminate|].
    cbv [bind] in Hret. rewrite constructor_nonempty in Hret.
    by injection Hret as <- <-.
  - intros Hret. right. destruct (Hfallback None (or_introl eq_refl) Hret) as (? & ? & ?).
    eauto.
Qed.

End ServerTokenManagerConstruction.

Section ServerTokenManagerUse.
Import ServerTokenManager.
Context `{Jose}.

Lemma authenticate_loop_throws (token : string) (keys : list Uint8Array)
    (verifyError : option JsError) (e : JsError) :
  authenticate_loop token keys verifyError = Throw e →
  (∃ v, e = AuthenticationError ("Invalid server token: " +:+ template v))
  ∧ ∀ k, k ∈ keys → ∃ e', jwtVerify token (λ _, k) = Throw e'.
Proof.
  revert verifyError. induction keys as [|k keys IH]; intros verifyError; simpl.
  - intros [= <-]. split; [by eexists|]. by intros k Hk%elem_of_nil.
  - destruct (jwtVerify token (λ _, k)) as [r|e'] eqn:E; [discriminate|].
    intros [Hname Hall]%IH. split; [done|].
    intros k' [->|Hk']%elem_of_cons; [by eexists|by apply Hall].
Qed.

(** X5. [authenticate] throws nothing but an [AuthenticationError] whose
    message starts with [Invalid server token: ]; what [jwtVerify] threw is
    never rethrown as it is. When it throws, every key of the store has
    failed to verify the token. *)
Theorem authenticate_throws_only_AuthenticationError (token : string) (this : t)
    (e : JsError) :
  authenticate token this = Throw e →
  name e = "AuthenticationError"
  ∧ (∃ v, message e = "Invalid server token: " +:+ template v)
  ∧ ∀ k, k ∈ verificationKeys this → ∃ e', jwtVerify token (λ _, k) = Throw e'.
Proof.
  intros [[v ->] Hall]%authenticate_loop_throws. split; [done|].
  split; [by exists v|done].
Qed.

(** X6. A token a manager issued is accepted by every manager that holds
    the issuer's signing key among its verification keys, at whatever
    position: keys can be rotated in before they sign. *)
Theorem authenticate_accepts_issuer_key (NODE_ENV : option string) (jwk : JSONObject)
    (issuer issuer' verifier : t) (token : string) (k : Uint8Array) :
  verify_accepts_signed →
  getToken NODE_ENV jwk issuer = (Return token, issuer') →
  signingKey issuer' = Some k →
  k ∈ verificationKeys verifier →
  authenticate token verifier = Return ().
Proof.
  intros Hverify (k' & Hkey & Hsign)%getToken_signs Hk Hin.
  rewrite Hk in Hkey. injection Hkey as <-.
  apply authenticate_returns_iff.
  exists k, (mkVerifyResult (_payload getToken_jwt) (_protectedHeader getToken_jwt)).
  split; [done|].
  by apply Hverify with (k := k);
    [apply getToken_jwt_alg|apply getToken_jwt_untimed..| |].
Qed.

(** X7. Acceptance depends on the set of stored keys only: a manager whose
    keys include those of another accepts every token the other accepts,
    so neither the order of the keys nor added keys ever turn an accepted
    token into a rejected one. *)
Theorem authenticate_monotone (token : string) (this that : t) :
  (∀ k, k ∈ verificationKeys this → k ∈ verificationKeys that) →
  authenticate token this = Return () →
  authenticate token that = Return ().
Proof.
  intros Hsub (k & r & Hin & Hr)%authenticate_returns_iff.
  apply authenticate_returns_iff. exists k, r. split; [by apply Hsub|done].
Qed.

(** X8. A manager constructed from several secrets signs with the first
    one only: its token is the one a manager constructed from that secret
    alone issues, and issuing leaves the instance as it is. *)
Theorem getToken_signs_with_first_secret (NODE_ENV : option string)
    (s : string) (secrets : list string) (jwk : JSONObject) (this alone : t) :
  constructor NODE_ENV (s :: secrets) = Return this →
  constructor NODE_ENV [s] = Return alone →
  getToken NODE_ENV jwk this = (SignJWT_sign getToken_jwt (base64url_decode s), this)
  ∧ fst (getToken NODE_ENV jwk this) = fst (getToken NODE_ENV jwk alone).
Proof.
  rewrite !constructor_nonempty. intros [= <-] [= <-].
  rewrite !getToken_nonempty by done. done.
Qed.

(** X10. Outside development no call generates a key: [getToken] leaves
    the instance as it is, and on an empty store it throws the error of
    [generateKeys] instead of signing. *)
Theorem no_key_generation_outside_development (NODE_ENV : option string)
    (jwk : JSONObject) (this : t) :
  NODE_ENV ≠ Some "development" →
  snd (getToken NODE_ENV jwk this) = this
  ∧ (verificationKeys this = [] →
     fst (getToken NODE_ENV jwk this)
     = Throw (Error "Key generation is not supported outside of the dev environment")).
Proof.
  intros Henv. destruct (verificationKeys this) as [|k keys] eqn:Hkeys.
  - by rewrite getToken_empty_elsewhere.
  - rewrite getToken_nonempty by by rewrite Hkeys. done.
Qed.

End ServerTokenManagerUse.

Section ServerTokenManagerReachable.
Import ServerTokenManager.
Context `{Jose}.
Variable NODE_ENV : option string.

(** An instance with an empty store is met in development only. *)
Lemma trace_empty_development (secrets : list string) (this that : t) (cs : list Call) :
  constructor NODE_ENV secrets = Return this →
  that ∈ trace NODE_ENV this cs →
  verificationKeys that = [] →
  NODE_ENV = Some "development".
Proof.
  intros Hctor Hthat Hnil.
  pose proof (trace_prefix NODE_ENV this that cs Hthat) as Hprefix.
  rewrite Hnil in Hprefix. apply prefix_nil_inv in Hprefix.
  destruct secrets as [|s secrets].
  - by apply constructor_empty in Hctor as [? _].
  - rewrite constructor_nonempty in Hctor. by injection Hctor as <-.
Qed.

(** From an instance whose signing key is its first key, and whose store
    is empty in development only, [getToken] resolves and the token
    authenticates. *)
Lemma getToken_then_authenticate_invariant (that : t) (jwk : JSONObject) :
  sign_HS256_returns → verify_accepts_signed →
  signingKey that = verificationKeys that !! 0 →
  (verificationKeys that = [] → NODE_ENV = Some "development") →
  ∃ token that',
    getToken NODE_ENV jwk that = (Return token, that')
    ∧ authenticate token that' = Return ()
    ∧ (verificationKeys that ≠ [] → that' = that).
Proof.
  intros Hsign Hverify Hhead Hdev.
  assert (Haccept : ∀ k token (it : t),
            SignJWT_sign getToken_jwt k = Return token →
            k ∈ verificationKeys it → authenticate token it = Return ()).
  { intros k token it Htoken Hin. apply authenticate_returns_iff.
    exists k, (mkVerifyResult (_payload getToken_jwt) (_protectedHeader getToken_jwt)).
    split; [done|].
    by apply Hverify with (k := k);
      [apply getToken_jwt_alg|apply getToken_jwt_untimed..| |]. }
  destruct (verificationKeys that) as [|k keys] eqn:Hkeys.
  - pose proof (Hdev eq_refl) as Henv.
    set (g := base64url_decode (default EmptyString (jwk !! "k"))).
    destruct (Hsign getToken_jwt g getToken_jwt_alg) as [token Htoken].
    exists token, (mk [g] (Some g)). split; [|split; [|done]].
    + rewrite getToken_empty_development by done. by rewrite <- Htoken.
    + apply (Haccept g); [done|]. simpl. left.
  - destruct (Hsign getToken_jwt k getToken_jwt_alg) as [token Htoken].
    exists token, that. split; [|split; [|done]].
    + rewrite getToken_nonempty by by rewrite Hkeys.
      rewrite Hhead. simpl. by rewrite Htoken.
    + apply (Haccept k); [done|]. rewrite Hkeys. left.
Qed.

(** X9. In every state a constructed manager reaches through [getToken]
    and [authenticate] calls, [getToken] resolves, [authenticate] of the
    token on the instance it leaves returns, and an instance with a
    non-empty store is left as it is: the signing key is never
    [undefined] when [getToken] signs. *)
Theorem getToken_then_authenticate_in_every_state (secrets : list string)
    (this that : t) (cs : list Call) (jwk : JSONObject) :
  sign_HS256_returns → verify_accepts_signed →
  constructor NODE_ENV secrets = Return this →
  that ∈ trace NODE_ENV this cs →
  ∃ token that',
    getToken NODE_ENV jwk that = (Return token, that')
    ∧ authenticate token that' = Return ()
    ∧ (verificationKeys that ≠ [] → that' = that).
Proof.
  intros Hsign Hverify Hctor Hthat.
  apply getToken_then_authenticate_invariant; [done..| |].
  - eapply trace_signingKey; [|done]. by eapply constructor_signingKey.
  - by eapply trace_empty_development.
Qed.

(** What [fromConfig] returns was made by the constructor. *)
Lemma fromConfig_constructed (keys : option (list (gmap string JSON))) (this : t)
    (warnings : list string) :
  fromConfig NODE_ENV keys = Return (this, warnings) →
  ∃ secrets, constructor NODE_ENV secrets = Return this.
Proof.
  unfold fromConfig. destruct keys as [[|c keys]|].
  - destruct (not_development NODE_ENV); [discriminate|].
    destruct (constructor NODE_ENV []) as [m|e] eqn:E; [|discriminate].
    intros [= <- _]. eauto.
  - destruct (mapM (getString "secret") (c :: keys)) as [secrets|e]; [|discriminate].
    cbv [bind]. destruct (constructor NODE_ENV secrets) as [m|e] eqn:E; [|discriminate].
    intros [= <- _]. eauto.
  - destruct (not_development NODE_ENV); [discriminate|].
    destruct (constructor NODE_ENV []) as [m|e] eqn:E; [|discriminate].
    intros [= <- _]. eauto.
Qed.

(** X14. Every manager [fromConfig] returns, with configured keys in any
    environment or without them in development, issues a token that it
    accepts itself. *)
Theorem fromConfig_then_getToken_authenticate (keys : option (list (gmap string JSON)))
    (this : t) (warnings : list string) (jwk : JSONObject) :
  sign_HS256_returns → verify_accepts_signed →
  fromConfig NODE_ENV keys = Return (this, warnings) →
  ∃ token that,
    getToken NODE_ENV jwk this = (Return token, that)
    ∧ authenticate token that = Return ().
Proof.
  intros Hsign Hverify [secrets Hctor]%fromConfig_constructed.
  destruct (getToken_then_authenticate_invariant this jwk Hsign Hverify)
    as (token & that & Hget & Hauth & _).
  - by eapply constructor_signingKey.
  - intros Hnil. by eapply (trace_empty_development secrets this this []); [|left|].
  - eauto.
Qed.

End ServerTokenManagerReachable.

(** ** The token factory of the test *)

Section FakeTokenFactoryFacts.
Import FakeTokenFactory.
Context `{JoseKeys} `{Float64}.

Lemma issue_keys (this : t) (i : Issue) :
  issue this i
  = mk (options this)
       (keys this ++ [<["kid" := issue_kid i]> (exportJWK (publicKey (issue_pair i)))]).
Proof. reflexivity. Qed.

Lemma issueAll_keys (this : t) (calls : list Issue) :
  issueAll this calls
  = mk (options this)
       (keys this
        ++ ((λ i, <["kid" := issue_kid i]> (exportJWK (publicKey (issue_pair i)))) <$> calls)).
Proof.
  revert this. induction calls as [|i calls IH]; intros this; simpl.
  - rewrite app_nil_r. by destruct this.
  - rewrite IH, issue_keys. simpl. by rewrite <- app_assoc.
Qed.

(** X11. After any sequence of [issueToken] calls the factory lists the
    keys it had before, unchanged and in place, followed by one key per
    call in the order of the calls: the exported public key of the call's
    pair under the call's key id. That is so whether signing resolved or
    not, and the options stay as they are. *)
Theorem issueAll_publishes_keys (this : t) (calls : list Issue) :
  listPublicKeys (issueAll this calls)
  = listPublicKeys this
    ++ ((λ i, <["kid" := issue_kid i]> (exportJWK (publicKey (issue_pair i)))) <$> calls)
  ∧ options (issueAll this calls) = options this.
Proof.
  by rewrite issueAll_keys.
Qed.

Lemma header_kid (ent : option JSON) (kid : string) :
  property "ent" ent {[ "alg" := JString "ES256"; "kid" := JString kid ]} !! "kid"
  = Some (JString kid).
Proof. by destruct ent. Qed.

(** X12. The key id [jwtKid] reads from an issued token is the one the
    factory published the signing pair's public key under, and that key
    stays listed after every later [issueToken]. *)
Theorem issued_token_names_published_key (claims : Claims) (now : Z) (pair : KeyPair)
    (kid : string) (this that : t) (token : string) :
  decode_signed_header →
  issueToken claims now pair kid this = (Return token, that) →
  jwtKid token = Return (JString kid)
  ∧ (<["kid" := kid]> (exportJWK (publicKey pair))) !! "kid" = Some kid
  ∧ ∀ calls, <["kid" := kid]> (exportJWK (publicKey pair))
             ∈ listPublicKeys (issueAll that calls).
Proof.
  intros Hdecode Hissue. unfold issueToken in Hissue.
  injection Hissue as Hsign <-. split; [|split].
  - unfold jwtKid. rewrite (Hdecode _ _ _ Hsign). simpl. by rewrite header_kid.
  - apply lookup_insert_eq.
  - intros calls. rewrite issueAll_keys.
    unfold listPublicKeys. simpl. unfold push. set_solver.
Qed.

(** X13. When the numbers involved are safe integers, a token issued [n]
    whole seconds after the time [T] has [iat] the whole second of [T] plus
    [n] and [exp] that plus [keyDurationSeconds]; the setters leave the
    claims of the initial payload as they are, so the payload holds [iss],
    [sub], [aud], [iat], [exp], [kid] and, when given, [ent], and the
    header [alg], [kid] and, when given, [ent]. *)
Theorem issued_token_claims (options : Options) (claims : Claims) (T n : Z)
    (kid : string) :
  exact_on_safe_integers →
  isSafeInteger (T + n * 1000) →
  isSafeInteger (keyDurationSeconds options) →
  isSafeInteger (T / 1000 + n + keyDurationSeconds options) →
  _payload (issueToken_jwt options claims (T + n * 1000) kid)
  = property "ent" (JStrings <$> ent claims)
      {[ "iss" := JString (issuer options); "sub" := JString (sub claims);
         "aud" := JString "backstage"; "iat" := JNumber (T / 1000 + n);
         "exp" := JNumber (T / 1000 + n + keyDurationSeconds options);
         "kid" := JString kid ]}
  ∧ _protectedHeader (issueToken_jwt options claims (T + n * 1000) kid)
    = property "ent" (JStrings <$> ent claims)
        {[ "alg" := JString "ES256"; "kid" := JString kid ]}.
Proof.
  intros [Hdiv Hadd] Hnow Hduration Hexp. unfold issueToken_jwt.
  rewrite (Hdiv _ Hnow), Z.div_add by done.
  assert (isSafeInteger (T / 1000 + n)) as Hiat.
  { unfold isSafeInteger in *.
    assert (T / 1000 + n = (T + n * 1000) / 1000)%Z as -> by (by rewrite Z.div_add).
    split.
    - apply Z.div_le_lower_bound; lia.
    - apply Z.div_le_upper_bound; lia. }
  rewrite (Hadd _ _ Hiat Hduration Hexp).
  split; [|done]. by destruct (ent claims).
Qed.

End FakeTokenFactoryFacts.

Module SymbolicKeysFacts.
Import SymbolicKeys.

Lemma parse_serialize_keys (c : Compact) : parse (serialize c) = Some c.
Proof.
  unfold parse, serialize. rewrite SymbolicJoseFacts.undigits_digits. simpl.
  apply decode_encode.
Qed.

Lemma decodes_signed_header : @FakeTokenFactory.decode_signed_header symbolic.
Proof.
  intros b key token [= <-]. simpl. unfold symbolic_header.
  by rewrite parse_serialize_keys.
Qed.

End SymbolicKeysFacts.

(** ** The theorems at concrete inputs *)

Import ServerTokenManager Examples.
#[local] Existing Instance SymbolicJose.symbolic.

Lemma getToken_then_authenticate_witness :
  ∃ this token,
    constructor (Some "production") [secret; other_secret] = Return this
    ∧ getToken (Some "production") ∅ this = (Return token, this)
    ∧ authenticate token this = Return ().
Proof.
  apply (getToken_then_authenticate (Some "production") [secret; other_secret] ∅
           SymbolicJoseFacts.sign_returns SymbolicJoseFacts.accepts_signed).
  discriminate.
Defined.

Lemma first_getToken_generates_signing_key_witness :
  ∃ token,
    getToken (Some "development") generated (mk [] None)
    = (Return token, mk [String.list_byte_of_string "Z2VuZXJhdGVk"]
                        (Some (String.list_byte_of_string "Z2VuZXJhdGVk")))
    ∧ authenticate token (mk [String.list_byte_of_string "Z2VuZXJhdGVk"]
                             (Some (String.list_byte_of_string "Z2VuZXJhdGVk")))
      = Return ().
Proof.
  apply (first_getToken_generates_signing_key (Some "development") generated (mk [] None)
           SymbolicJoseFacts.sign_returns SymbolicJoseFacts.accepts_signed).
  reflexivity.
Defined.

Lemma authenticate_empty_store_witness :
  authenticate HS512_token (mk [] None)
  = Throw (AuthenticationError "Invalid server token: undefined").
Proof. apply (authenticate_empty_store HS512_token (mk [] None)). reflexivity. Defined.

(** C2 fails as stated: in the reference instance, which meets the whole
    contract, a token whose header declares HS512 and that is signed with a
    key of the store is accepted, in production as elsewhere;
    [authenticate] gives [jwtVerify] no list of accepted algorithms. *)
Lemma HS512_token_accepted :
  (sign_HS256_returns ∧ verify_accepts_signed ∧ verify_only_equivalent_key
   ∧ decode_signed ∧ verify_secret_algorithms)
  ∧ constructor (Some "production") [secret] = Return (mk [secret_key] (Some secret_key))
  ∧ SignJWT_sign HS512_jwt secret_key = Return HS512_token
  ∧ decodeProtectedHeader HS512_token = Return {[ "alg" := "HS512" ]}
  ∧ authenticate HS512_token (mk [secret_key] (Some secret_key)) = Return ().
Proof.
  split.
  - split; [apply SymbolicJoseFacts.sign_returns|].
    split; [apply SymbolicJoseFacts.accepts_signed|].
    split; [apply SymbolicJoseFacts.only_equivalent_key|].
    split; [apply SymbolicJoseFacts.decodes_signed|].
    apply SymbolicJoseFacts.only_secret_algorithms.
  - repeat split; vm_compute; reflexivity.
Qed.

Lemma authenticate_rejects_inapplicable_alg_witness :
  ∃ msg, authenticate none_token (mk [secret_key] (Some secret_key))
         = Throw (AuthenticationError msg).
Proof.
  apply (authenticate_rejects_inapplicable_alg none_token none_header "none"
           (mk [secret_key] (Some secret_key)) SymbolicJoseFacts.only_secret_algorithms).
  - vm_compute. reflexivity.
  - reflexivity.
  - by intros Hin%(bool_decide_pack _).
Defined.

(** C3 fails as stated: with [NODE_ENV] set to ["test"], or not set at all,
    construction with no secrets throws, although the mode is not
    ["production"]. *)
Lemma empty_secrets_fail_in_test_mode :
  constructor (Some "test") []
  = Throw (Error "No secrets provided when constructing ServerTokenManager")
  ∧ constructor None []
    = Throw (Error "No secrets provided when constructing ServerTokenManager")
  ∧ fromConfig (Some "test") None
    = Throw (Error "You must configure at least one key in backend.auth.keys for production.").
Proof. repeat split. Qed.

(** C9 fails as stated: the payload of the token carries an [alg] claim
    next to [sub]. *)
Lemma server_token_payload_carries_alg :
  ∃ token payload,
    getToken (Some "production") ∅ (mk [secret_key] (Some secret_key))
    = (Return token, mk [secret_key] (Some secret_key))
    ∧ decodeJwt token = Return payload
    ∧ payload !! "alg" = Some "HS256"
    ∧ payload !! "sub" = Some "backstage-server".
Proof. eexists _, _. repeat split; vm_compute; reflexivity. Qed.

Lemma getToken_token_shape_witness :
  ∃ token,
    getToken (Some "production") ∅ (mk [secret_key] (Some secret_key))
    = (Return token, mk [secret_key] (Some secret_key))
    ∧ (∃ k, Some secret_key = Some k ∧ SignJWT_sign getToken_jwt k = Return token)
    ∧ decodeProtectedHeader token
      = Return {[ "alg" := "HS256"; "sub" := "backstage-server" ]}
    ∧ decodeJwt token
      = Return {[ "alg" := "HS256"; "sub" := "backstage-server" ]}.
Proof.
  eexists. split; [vm_compute; reflexivity|].
  apply (getToken_token_shape (Some "production") ∅ (mk [secret_key] (Some secret_key))
           (mk [secret_key] (Some secret_key)) _ SymbolicJoseFacts.decodes_signed).
  vm_compute. reflexivity.
Defined.



(** C8 fails as stated: two first [getToken] calls that overlap both find
    the store empty, and each pushes the key it generated; the second push
    is on a store that is not empty. *)
Lemma overlapping_calls_generate_twice :
  let g1 := String.list_byte_of_string "Z2VuZXJhdGVk" in
  let g2 := String.list_byte_of_string "c2Vjb25k" in
  let overlapping :=
    [GetToken; GetToken; Resume 0 ∅; Resume 1 ∅;
     Resume 0 generated; Resume 1 {[ "k" := "c2Vjb25k" ]}] in
  constructor (Some "development") [] = Return (mk [] None)
  ∧ instance <$> history (Some "development") (mkSystem (mk [] None) []) overlapping
    = [mk [] None; mk [] None; mk [] None; mk [] None; mk [] None;
       mk [g1] (Some g1); mk [g1; g2] (Some g1)]
  ∧ mutations
      (instance <$> history (Some "development") (mkSystem (mk [] None) []) overlapping)
    = 2.
Proof. repeat split. Qed.

Lemma signing_key_heads_store_witness :
  let this := mk [] None in
  (∀ es s, s ∈ history (Some "development") (mkSystem this []) es →
     signingKey (instance s) = verificationKeys (instance s) !! 0
     ∧ (verificationKeys (instance s) ≠ [] →
        ∃ k, signingKey (instance s) = Some k ∧ k ∈ verificationKeys (instance s))
     ∧ verificationKeys this `prefix_of` verificationKeys (instance s))
  ∧ (∀ es i a b,
       history (Some "development") (mkSystem this []) es !! i = Some a →
       history (Some "development") (mkSystem this []) es !! S i = Some b →
       verificationKeys (instance b) = verificationKeys (instance a)
       ∨ ∃ k, verificationKeys (instance b) = verificationKeys (instance a) ++ [k])
  ∧ (@nil string ≠ [] →
     ∀ es s, s ∈ history (Some "development") (mkSystem this []) es → instance s = this)
  ∧ (∀ s jwk,
       fold_left (react (Some "development")) (awaited s jwk) s
       = mkSystem (snd (getToken (Some "development") jwk (instance s)))
                  (tasks s ++ [Settled (fst (getToken (Some "development") jwk (instance s)))]))
  ∧ (∀ cs,
       mutations (trace (Some "development") this cs) ≤ 1
       ∧ ∀ i a b,
           trace (Some "development") this cs !! i = Some a →
           trace (Some "development") this cs !! S i = Some b →
           verificationKeys a ≠ verificationKeys b →
           verificationKeys a = [] ∧ ∃ k, verificationKeys b = [k]).
Proof.
  intros this.
  apply (signing_key_heads_store (Some "development") [] this).
  reflexivity.
Defined.

#[local] Existing Instance SymbolicKeys.symbolic.
#[local] Existing Instance SymbolicKeys.exact.


(** The tests [should throw on incorrect signing key] and [should accept
    token from new key]. A token of another factory names a key id the
    authority does not publish: the client fetches once and fails, and
    fails again without a fetch before the cooldown has elapsed. After the
    cooldown, when the factory has issued under a second key, the client
    with the first key cached fetches once and accepts the new token. *)
Lemma refresh_once_per_lookup_witness :
  (∃ msg, FactoryExamples.client (Some FactoryExamples.forged) 990
            (Return FactoryExamples.ks1) IdentityClient.empty
          = (Throw (AuthenticationError msg),
             IdentityClient.mkCache FactoryExamples.ks1 (Some 990%Z), 1))
  ∧ (∃ msg, FactoryExamples.client (Some FactoryExamples.forged) 1139
              (Return FactoryExamples.ks1)
              (IdentityClient.mkCache FactoryExamples.ks1 (Some 990%Z))
            = (Throw (AuthenticationError msg),
               IdentityClient.mkCache FactoryExamples.ks1 (Some 990%Z), 0))
  ∧ FactoryExamples.client (Some FactoryExamples.token2) 1150
      (Return FactoryExamples.ks2)
      (IdentityClient.mkCache FactoryExamples.ks1 (Some 990%Z))
    = (Return (IdentityClient.toResponse FactoryExamples.token2
                 (IdentityClient.mkClaims mockBaseUrl "foo" "backstage" 1150 1155 None)),
       IdentityClient.mkCache FactoryExamples.ks2 (Some 1150%Z), 1).
Proof.
  destruct (refresh_once_per_lookup SymbolicKeys.symbolic_header
              FactoryExamples.verifySignature ["ES256"]
              (30 * FactoryExamples.keyDurationSeconds) 0 mockBaseUrl)
    as (_ & _ & Hmiss & Hrotated).
  assert (FactoryExamples.forged ≠ EmptyString) as Hnonempty.
  { intros Hempty. vm_compute in Hempty. discriminate. }
  assert (SymbolicKeys.symbolic_header FactoryExamples.forged
          = Return {[ "alg" := JString "ES256"; "kid" := JString "key-3" ]}) as Hforged
    by (vm_compute; reflexivity).
  assert (FactoryExamples.ks1 !! "key-3" = None) as Hunpublished
    by (vm_compute; reflexivity).
  destruct (Hmiss FactoryExamples.forged
              {[ "alg" := JString "ES256"; "kid" := JString "key-3" ]}
              "key-3" "ES256" 990%Z FactoryExamples.ks1 IdentityClient.empty
              Hnonempty Hforged eq_refl eq_refl eq_refl eq_refl Hunpublished)
    as [Hfirst Hwindow].
  split; [exact Hfirst|]. split.
  - apply (Hwindow FactoryExamples.forged
             {[ "alg" := JString "ES256"; "kid" := JString "key-3" ]}
             "key-3" "ES256" 1139%Z (Return FactoryExamples.ks1)
             Hnonempty Hforged eq_refl eq_refl Hunpublished).
    unfold FactoryExamples.keyDurationSeconds. simpl. lia.
  - apply (Hrotated FactoryExamples.token2
             {[ "alg" := JString "ES256"; "kid" := JString "key-2" ]}
             "key-2" "ES256"
             (<["kid" := "key-2"]>
                (FakeTokenFactory.exportJWK
                   (FakeTokenFactory.publicKey FactoryExamples.second_pair)))
             (IdentityClient.mkClaims mockBaseUrl "foo" "backstage" 1150 1155 None)
             1150%Z 990%Z FactoryExamples.ks2
             (IdentityClient.mkCache FactoryExamples.ks1 (Some 990%Z))).
    + intros Hempty. vm_compute in Hempty. discriminate.
    + vm_compute. reflexivity.
    + reflexivity.
    + reflexivity.
    + vm_compute. reflexivity.
    + reflexivity.
    + unfold FactoryExamples.keyDurationSeconds. simpl. lia.
    + vm_compute. reflexivity.
    + intros a Ha. vm_compute in Ha. discriminate.
    + apply list_elem_of_here.
    + vm_compute. reflexivity.
    + reflexivity.
    + reflexivity.
    + unfold FactoryExamples.keyDurationSeconds. simpl. lia.
    + unfold FactoryExamples.keyDurationSeconds. simpl. lia.
Defined.

(** ** The further properties at concrete inputs *)

Lemma constructor_decodes_in_order_witness :
  let this := mk [secret_key; String.list_byte_of_string other_secret] (Some secret_key) in
  verificationKeys this = base64url_decode <$> [secret; other_secret]
  ∧ signingKey this = base64url_decode <$> head [secret; other_secret]
  ∧ length (verificationKeys this) = length [secret; other_secret].
Proof.
  intros this.
  apply (constructor_decodes_in_order (Some "production") [secret; other_secret] this).
  reflexivity.
Defined.

Lemma fromConfig_configured_witness :
  fromConfig (Some "production")
    (Some [{[ "secret" := JString secret ]};
           {[ "secret" := JString other_secret; "note" := JString "next" ]}])
  = Return (mk (base64url_decode <$> [secret; other_secret])
               (base64url_decode <$> head [secret; other_secret]), []).
Proof.
  apply (fromConfig_configured (Some "production")
           [{[ "secret" := JString secret ]};
            {[ "secret" := JString other_secret; "note" := JString "next" ]}]
           [secret; other_secret]).
  - discriminate.
  - repeat constructor; discriminate.
Defined.

Lemma fromConfig_missing_secret_witness :
  ∃ e, fromConfig (Some "development") (Some [{[ "secret" := JString secret ]}; ∅])
       = Throw e.
Proof.
  apply (fromConfig_missing_secret (Some "development")
           [{[ "secret" := JString secret ]}; ∅] ∅).
  - apply list_elem_of_further, list_elem_of_here.
  - reflexivity.
Defined.

Lemma fromConfig_empty_store_only_in_development_witness :
  (verificationKeys (mk [] None) ≠ [] ∧ signingKey (mk [] None) = verificationKeys (mk [] None) !! 0
   ∧ ["Generated a secret for backend-to-backend authentication: DEVELOPMENT USE ONLY."] = [])
  ∨ (Some "development" = Some "development"
     ∧ (@None (list (gmap string JSON)) = None
        ∨ @None (list (gmap string JSON)) = Some [])
     ∧ mk [] None = mk [] None
     ∧ ["Generated a secret for backend-to-backend authentication: DEVELOPMENT USE ONLY."]
       = ["Generated a secret for backend-to-backend authentication: DEVELOPMENT USE ONLY."]).
Proof.
  apply (fromConfig_empty_store_only_in_development (Some "development") None (mk [] None)
           ["Generated a secret for backend-to-backend authentication: DEVELOPMENT USE ONLY."]).
  reflexivity.
Defined.

Lemma authenticate_throws_only_AuthenticationError_witness :
  let e := AuthenticationError
             "Invalid server token: JOSENotSupported: Unsupported alg value for a secret" in
  name e = "AuthenticationError"
  ∧ (∃ v, message e = "Invalid server token: " +:+ template v)
  ∧ ∀ k, k ∈ [secret_key] → ∃ e', jwtVerify none_token (λ _, k) = Throw e'.
Proof.
  intros e.
  apply (authenticate_throws_only_AuthenticationError none_token
           (mk [secret_key] (Some secret_key)) e).
  vm_compute. reflexivity.
Defined.

Lemma authenticate_accepts_issuer_key_witness :
  ∃ token,
    getToken (Some "production") ∅ (mk [secret_key] (Some secret_key))
    = (Return token, mk [secret_key] (Some secret_key))
    ∧ authenticate token
        (mk [String.list_byte_of_string other_secret; secret_key]
            (Some (String.list_byte_of_string other_secret)))
      = Return ().
Proof.
  assert (∃ token, getToken (Some "production") ∅ (mk [secret_key] (Some secret_key))
                   = (Return token, mk [secret_key] (Some secret_key))) as [token Hget].
  { eexists. vm_compute. reflexivity. }
  exists token. split; [exact Hget|].
  apply (authenticate_accepts_issuer_key (Some "production") ∅
           (mk [secret_key] (Some secret_key)) (mk [secret_key] (Some secret_key))
           (mk [String.list_byte_of_string other_secret; secret_key]
               (Some (String.list_byte_of_string other_secret)))
           token secret_key SymbolicJoseFacts.accepts_signed Hget).
  - reflexivity.
  - apply list_elem_of_further, list_elem_of_here.
Defined.

Lemma authenticate_monotone_witness :
  authenticate HS512_token
    (mk [String.list_byte_of_string other_secret; secret_key]
        (Some (String.list_byte_of_string other_secret)))
  = Return ().
Proof.
  apply (authenticate_monotone HS512_token (mk [secret_key] (Some secret_key))
           (mk [String.list_byte_of_string other_secret; secret_key]
               (Some (String.list_byte_of_string other_secret)))).
  - intros k Hk. simpl in *. by apply list_elem_of_further.
  - vm_compute. reflexivity.
Defined.

Lemma getToken_signs_with_first_secret_witness :
  let this := mk [secret_key; String.list_byte_of_string other_secret] (Some secret_key) in
  getToken (Some "production") ∅ this = (SignJWT_sign getToken_jwt (base64url_decode secret), this)
  ∧ fst (getToken (Some "production") ∅ this)
    = fst (getToken (Some "production") ∅ (mk [secret_key] (Some secret_key))).
Proof.
  intros this.
  apply (getToken_signs_with_first_secret (Some "production") secret [other_secret] ∅ this
           (mk [secret_key] (Some secret_key))); reflexivity.
Defined.

Lemma no_key_generation_outside_development_witness :
  snd (getToken (Some "production") generated (mk [] None)) = mk [] None
  ∧ (verificationKeys (mk [] None) = [] →
     fst (getToken (Some "production") generated (mk [] None))
     = Throw (Error "Key generation is not supported outside of the dev environment")).
Proof.
  apply (no_key_generation_outside_development (Some "production") generated (mk [] None)).
  discriminate.
Defined.

Lemma getToken_then_authenticate_in_every_state_witness :
  let g := String.list_byte_of_string "Z2VuZXJhdGVk" in
  ∃ token that',
    getToken (Some "development") ∅ (mk [g] (Some g)) = (Return token, that')
    ∧ authenticate token that' = Return ()
    ∧ (verificationKeys (mk [g] (Some g)) ≠ [] → that' = mk [g] (Some g)).
Proof.
  intros g.
  apply (getToken_then_authenticate_in_every_state (Some "development") [] (mk [] None)
           (mk [g] (Some g)) [CallGetToken generated; CallAuthenticate none_token] ∅
           SymbolicJoseFacts.sign_returns SymbolicJoseFacts.accepts_signed).
  - reflexivity.
  - vm_compute. apply list_elem_of_further, list_elem_of_here.
Defined.

Lemma fromConfig_then_getToken_authenticate_witness :
  ∃ token that,
    getToken (Some "development") generated (mk [] None) = (Return token, that)
    ∧ authenticate token that = Return ().
Proof.
  apply (fromConfig_then_getToken_authenticate (Some "development") None (mk [] None)
           ["Generated a secret for backend-to-backend authentication: DEVELOPMENT USE ONLY."]
           generated SymbolicJoseFacts.sign_returns SymbolicJoseFacts.accepts_signed).
  reflexivity.
Defined.

Lemma exact_is_exact : FakeTokenFactory.exact_on_safe_integers.
Proof. split; reflexivity. Qed.

Lemma issued_token_names_published_key_witness :
  ∃ token that,
    FakeTokenFactory.issueToken FactoryExamples.foo 1000000
      FactoryExamples.first_pair "key-1" FactoryExamples.factory
    = (Return token, that)
    ∧ FakeTokenFactory.jwtKid token = Return (JString "key-1")
    ∧ (<["kid" := "key-1"]> (FakeTokenFactory.exportJWK (FakeTokenFactory.publicKey FactoryExamples.first_pair))) !! "kid"
      = Some "key-1"
    ∧ ∀ calls,
        <["kid" := "key-1"]> (FakeTokenFactory.exportJWK (FakeTokenFactory.publicKey FactoryExamples.first_pair))
        ∈ FakeTokenFactory.listPublicKeys (FakeTokenFactory.issueAll that calls).
Proof.
  eexists _, _. split; [reflexivity|].
  apply (issued_token_names_published_key FactoryExamples.foo 1000000
           FactoryExamples.first_pair "key-1" FactoryExamples.factory _ _
           SymbolicKeysFacts.decodes_signed_header).
  reflexivity.
Defined.

Lemma issued_token_claims_witness :
  let options := FakeTokenFactory.mkOptions Examples.mockBaseUrl 5 in
  FakeTokenFactory._payload
    (FakeTokenFactory.issueToken_jwt options FactoryExamples.foo (1000999 + -10 * 1000)
       "key-1")
  = property "ent" None
      {[ "iss" := JString Examples.mockBaseUrl; "sub" := JString "foo";
         "aud" := JString "backstage"; "iat" := JNumber (1000999 / 1000 + -10);
         "exp" := JNumber (1000999 / 1000 + -10 + 5); "kid" := JString "key-1" ]}
  ∧ FakeTokenFactory._protectedHeader
      (FakeTokenFactory.issueToken_jwt options FactoryExamples.foo (1000999 + -10 * 1000)
         "key-1")
    = property "ent" None {[ "alg" := JString "ES256"; "kid" := JString "key-1" ]}.
Proof.
  intros options.
  apply (issued_token_claims options FactoryExamples.foo 1000999 (-10) "key-1"
           exact_is_exact).
  - split; apply Z.leb_le; vm_compute; reflexivity.
  - split; apply Z.leb_le; vm_compute; reflexivity.
  - split; apply Z.leb_le; vm_compute; reflexivity.
Defined.
